(** * ActionHistoryComponent: the progress digest of an agent's episodes

    A shallow embedding of
    [forge/components/action_history/action_history.py]:
    [ActionHistoryComponent._compile_progress] and
    [ActionHistoryComponent.get_messages].

    Python [str] is embedded as [string], one [ascii] per code point
    (code points below 256); Python [int] as [Z]; [Optional[T]] as
    [option T]; a raised exception as the [Raise] outcome.  The calls
    to the collaborators ([format()], [count_tokens]) are logged in the
    order the body makes them. *)

From Stdlib Require Import ZArith List String Ascii Bool Lia.
From Stdlib Require Import Numbers.DecimalString.
Import ListNotations.

Open Scope string_scope.
Open Scope Z_scope.

(** ** Python values used by the component *)

Module Py.

(** Exceptions the component raises. *)
Inductive exn : Type :=
| ValueError (msg : string).

(** The outcome of a call: a returned value or a raised exception. *)
Inductive outcome (A : Type) : Type :=
| Return (a : A)
| Raise (e : exn).
Arguments Return {A} a.
Arguments Raise {A} e.

(** The line feed, written [\n] in the source. *)
Definition LF : string := String (ascii_of_nat 10) EmptyString.

(** [str(z)] for an [int]. *)
Definition str (z : Z) : string := NilEmpty.string_of_int (Z.to_int z).

(** [len(l)] *)
Definition len {A : Type} (l : list A) : Z := Z.of_nat (List.length l).

(** Truth value of an [Optional[int]]: [None] and [0] are false. *)
Definition truthy_int (o : option Z) : bool :=
  match o with
  | Some z => negb (z =? 0)
  | None => false
  end.

(** Truth value of an [Optional[Callable]]: only [None] is false. *)
Definition truthy_fn {A B : Type} (o : option (A -> B)) : bool :=
  match o with
  | Some _ => true
  | None => false
  end.

(** Truth value of a [str]: only the empty string is false. *)
Definition truthy_str (s : string) : bool :=
  match s with
  | EmptyString => false
  | String _ _ => true
  end.

(** [c.isspace()] on the code points below 256: U+0009..U+000D,
    U+001C..U+0020, U+0085 and U+00A0. *)
Definition isspace (c : ascii) : bool :=
  let n := nat_of_ascii c in
  (((9 <=? n) && (n <=? 13)) || ((28 <=? n) && (n <=? 32))
   || (n =? 133) || (n =? 160))%nat.

(** [s.lstrip()] *)
Fixpoint lstrip (s : string) : string :=
  match s with
  | EmptyString => EmptyString
  | String c r => if isspace c then lstrip r else s
  end.

(** [s.rstrip()]: the string up to its last character that is not
    white space. *)
Fixpoint rstrip (s : string) : string :=
  match s with
  | EmptyString => EmptyString
  | String c r =>
      match rstrip r with
      | EmptyString => if isspace c then EmptyString else String c EmptyString
      | r' => String c r'
      end
  end.

(** [s.strip()] *)
Definition strip (s : string) : string := rstrip (lstrip s).

(** [sep.join(l)] *)
Definition join (sep : string) (l : list string) : string :=
  String.concat sep l.

(** [enumerate(l)], counting from [start]. *)
Fixpoint enumerate_from {A : Type} (start : Z) (l : list A) : list (Z * A) :=
  match l with
  | [] => []
  | x :: r => (start, x) :: enumerate_from (start + 1) r
  end.

Definition enumerate {A : Type} (l : list A) : list (Z * A) :=
  enumerate_from 0 l.

(** [reversed(l)] *)
Definition reversed {A : Type} (l : list A) : list A := rev l.

End Py.

Import Py.

(** ** Measures used to state the properties *)

(** The sum of the costs of a list of texts. *)
Fixpoint total (count : string -> Z) (texts : list string) : Z :=
  match texts with
  | [] => 0
  | text :: rest => count text + total count rest
  end.

(** How many leading texts a budget [m] takes from a running total
    [spent]: the scan stops at the first text that would push the
    running total over [m]. *)
Fixpoint fitting (m : Z) (count : string -> Z) (spent : Z)
    (texts : list string) : nat :=
  match texts with
  | [] => O
  | text :: rest =>
      if spent + count text >? m then O
      else S (fitting m count (spent + count text) rest)
  end.

(** Every character of [s] is white space. *)
Fixpoint all_space (s : string) : bool :=
  match s with
  | EmptyString => true
  | String c r => isspace c && all_space r
  end.

(** [s] starts, or ends, with a white space character. *)
Definition leading_space (s : string) : bool :=
  match s with
  | EmptyString => false
  | String c _ => isspace c
  end.

Fixpoint trailing_space (s : string) : bool :=
  match s with
  | EmptyString => false
  | String c EmptyString => isspace c
  | String _ r => trailing_space r
  end.

(** Two optional counters that return the same cost for every text. *)
Definition same_counter (a b : option (string -> Z)) : Prop :=
  match a, b with
  | None, None => True
  | Some f, Some g => forall text, f text = g text
  | _, _ => False
  end.

(** ** A concrete ledger *)

Module Sample.

(** An episode given by its rendering and its summary. *)
Record Episode : Type := mkEpisode {
  format : string;
  summary : option string
}.

(** [s.replace(LF, LF + pad)] *)
Fixpoint pad_lines (pad s : string) : string :=
  match s with
  | EmptyString => EmptyString
  | String c r =>
      if Ascii.eqb c (ascii_of_nat 10)
      then String c (pad ++ pad_lines pad r)
      else String c (pad_lines pad r)
  end.

Fixpoint spaces (n : nat) : string :=
  match n with
  | O => EmptyString
  | S k => String " " (spaces k)
  end.

(** Modelled from the spec: [indent] of [forge.llm.prompting.utils] is
    not among the sources; the spec has the rendering "re-indented by
    a fixed indent": every line is prefixed with [indentation]
    spaces. *)
Definition indent (content : string) (indentation : Z) : string :=
  let pad := spaces (Z.to_nat indentation) in
  pad ++ pad_lines pad content.

(** Token counters: the length of the text, and a counter under which
    a summarised step costs 5 and any other text 30. *)
Definition count_len (text : string) : Z := Z.of_nat (String.length text).

Definition count_30_5 (text : string) : Z :=
  if String.prefix "* Step 1: " text || String.prefix "* Step 2: " text
  then 5 else 30.

Definition ep (text : string) : Episode := mkEpisode text None.
Definition ep_sum (text sum : string) : Episode := mkEpisode text (Some sum).

Definition two : list Episode := [ep "run a"; ep "run b"].

Definition six : list Episode :=
  [ep_sum "list files" "listed"; ep_sum "read file" "read";
   ep "edit file"; ep "run tests"; ep "fix bug"; ep "commit"].

End Sample.

(** ** The component *)

Section ActionHistory.

(** [Episode] is declared in [.model]; the component reads two things
    of an episode: its [format()] rendering and its [summary]. *)
Variable Episode : Type.
Variable format : Episode -> string.
Variable summary : Episode -> option string.

(** [indent] is imported from [forge.llm.prompting.utils]. *)
Variable indent : string -> Z -> string.

(** Calls the compiler makes to its collaborators, in the order made. *)
Inductive Call : Type :=
| CallFormat (episode : Episode)
| CallCountTokens (text : string).

(** The locals [steps] and [tokens] of [_compile_progress], with the
    log of the collaborator calls made so far. *)
Record Frame : Type := mkFrame {
  steps : list string;
  tokens : Z;
  calls : list Call
}.

(** What a call returns, with the calls it made. *)
Record Run (A : Type) : Type := mkRun {
  result : outcome A;
  trace : list Call
}.
Arguments mkRun {A} result trace.
Arguments result {A} r.
Arguments trace {A} r.

(** The test [i < 4 or episode.summary is None]. *)
Definition full_format (i : Z) (episode : Episode) : bool :=
  (i <? 4) ||
  match summary episode with
  | None => true
  | Some _ => false
  end.

(** [step_content], lines 69-72. *)
Definition step_content (i : Z) (episode : Episode) : string :=
  if full_format i episode
  then strip (indent (format episode) 2)
  else match summary episode with
       | Some text => text
       | None => EmptyString
       end.

(** [f"* Step {n_episodes - i}: {step_content}"], line 74. *)
Definition step_text (n_episodes i : Z) (episode : Episode) : string :=
  "* Step " ++ str (n_episodes - i) ++ ": " ++ step_content i episode.

(** The guard [max_tokens and count_tokens] of line 76: the budget
    and the counter when both are true. *)
Definition budget (max_tokens : option Z)
    (count_tokens : option (string -> Z)) : option (Z * (string -> Z)) :=
  if truthy_int max_tokens && truthy_fn count_tokens
  then match max_tokens, count_tokens with
       | Some m, Some count => Some (m, count)
       | _, _ => None
       end
  else None.

(** The [for] loop of lines 67-82 over the remaining items of
    [enumerate(reversed(episode_history))]; [break] returns the frame
    as it is. *)
Fixpoint loop (max_tokens : option Z) (count_tokens : option (string -> Z))
    (n_episodes : Z) (items : list (Z * Episode)) (fr : Frame) : Frame :=
  match items with
  | [] => fr
  | (i, episode) :: rest =>
      let step := step_text n_episodes i episode in
      let log :=
        (calls fr ++ if full_format i episode then [CallFormat episode] else [])%list in
      match budget max_tokens count_tokens with
      | Some (m, count) =>
          let step_tokens := count step in
          if tokens fr + step_tokens >? m
          then mkFrame (steps fr) (tokens fr) (log ++ [CallCountTokens step])%list
          else loop max_tokens count_tokens n_episodes rest
                 (mkFrame (step :: steps fr) (tokens fr + step_tokens)
                          (log ++ [CallCountTokens step])%list)
      | None =>
          loop max_tokens count_tokens n_episodes rest
            (mkFrame (step :: steps fr) (tokens fr) log)
      end
  end.

(** The frame the loop ends in, from the initial [steps = []],
    [tokens = 0]. *)
Definition final_frame (episode_history : list Episode)
    (max_tokens : option Z) (count_tokens : option (string -> Z)) : Frame :=
  loop max_tokens count_tokens (len episode_history)
    (enumerate (reversed episode_history)) (mkFrame [] 0 []).

(** The labelled steps of the given items, in the order the loop meets
    them. *)
Definition scanned (n_episodes : Z) (items : list (Z * Episode)) : list string :=
  map (fun item => step_text n_episodes (fst item) (snd item)) items.

(** The labelled steps of a ledger in scan order, newest first. *)
Definition scan_steps (episode_history : list Episode) : list string :=
  scanned (len episode_history) (enumerate (reversed episode_history)).

(** A call that only reads: [format()] of an episode of the ledger, or
    [count_tokens] of a labelled step. *)
Definition read_only_call (episode_history : list Episode) (call : Call) : Prop :=
  match call with
  | CallFormat episode => In episode episode_history
  | CallCountTokens text => In text (scan_steps episode_history)
  end.

(** [_compile_progress], lines 54-84.  [self] is not used by the body
    and is left out. *)
Definition _compile_progress (episode_history : list Episode)
    (max_tokens : option Z) (count_tokens : option (string -> Z)) : Run string :=
  if truthy_int max_tokens && negb (truthy_fn count_tokens)
  then mkRun (Raise (ValueError "count_tokens is required if max_tokens is set")) []
  else
    let fr := final_frame episode_history max_tokens count_tokens in
    mkRun (Return (join (LF ++ LF) (steps fr))) (calls fr).

(** [ActionHistoryConfiguration], lines 15-17. *)
Record ActionHistoryConfiguration : Type := mkConfig {
  max_tokens : Z;
  browse_spacy_language_model : string
}.

Definition default_config : ActionHistoryConfiguration :=
  mkConfig 1024 "en_core_web_sm".

(** The fields of [ActionHistoryComponent] that [get_messages] reads;
    [event_history] stands for [self.event_history.episodes]. *)
Record ActionHistoryComponent : Type := mkComponent {
  event_history : list Episode;
  count_tokens : string -> Z;
  config : ActionHistoryConfiguration
}.

(** [ChatMessage.system(content)] of [forge.llm.providers]. *)
Inductive Role : Type := SYSTEM | USER | ASSISTANT.

Record ChatMessage : Type := mkChatMessage {
  role : Role;
  content : string
}.

Definition system (text : string) : ChatMessage := mkChatMessage SYSTEM text.

(** [get_messages], lines 37-43: the messages the generator yields. *)
Definition get_messages (self : ActionHistoryComponent)
  : outcome (list ChatMessage) :=
  match result (_compile_progress (event_history self)
                  (Some (max_tokens (config self)))
                  (Some (count_tokens self))) with
  | Return progress =>
      if truthy_str progress
      then Return [system ("## Progress on your Task so far" ++ LF ++ LF ++ progress)]
      else Return []
  | Raise e => Raise e
  end.

(** The number of [count_tokens] calls, and of [format()] calls, in a
    log. *)
Fixpoint count_tokens_calls (log : list Call) : nat :=
  match log with
  | [] => O
  | CallCountTokens _ :: rest => S (count_tokens_calls rest)
  | CallFormat _ :: rest => count_tokens_calls rest
  end.

Fixpoint format_calls (log : list Call) : nat :=
  match log with
  | [] => O
  | CallFormat _ :: rest => S (format_calls rest)
  | CallCountTokens _ :: rest => format_calls rest
  end.

(** The episodes among the given items that are rendered in full
    format, in the order the loop meets them. *)
Definition formatted (items : list (Z * Episode)) : list Episode :=
  map snd (filter (fun item => full_format (fst item) (snd item)) items).

(** ** The call on a heap

    To speak of what a call mutates, the objects it touches are placed
    in a heap: the argument [episode_history] is a reference to a list
    object that holds references to episode objects, and the local
    [steps] is a reference to the list object that line 63 creates and
    line 82 mutates.  The integers [tokens], [n_episodes] and [i] are
    immutable values bound to local names. *)

Inductive Obj : Type :=
| ObjEpisode (episode : Episode)
| ObjList (items : list nat)
| ObjStrList (items : list string).

(** A heap is the objects allocated so far; a reference is the position
    of its object. *)
Definition Heap : Type := list Obj.

(** Allocation of a fresh object: the new heap and the new reference. *)
Definition alloc (h : Heap) (o : Obj) : Heap * nat :=
  ((h ++ [o])%list, List.length h).

(** Replacement of the object at a reference ([steps.insert] mutates
    the list object in place). *)
Fixpoint store (h : Heap) (ref : nat) (o : Obj) : Heap :=
  match h, ref with
  | [], _ => []
  | _ :: rest, O => o :: rest
  | x :: rest, S ref' => x :: store rest ref' o
  end.

(** The episode object a reference points to. *)
Definition read_episode (h : Heap) (ref : nat) : option Episode :=
  match nth_error h ref with
  | Some (ObjEpisode episode) => Some episode
  | _ => None
  end.

Fixpoint read_episodes (h : Heap) (refs : list nat) : option (list Episode) :=
  match refs with
  | [] => Some []
  | ref :: rest =>
      match read_episode h ref, read_episodes h rest with
      | Some episode, Some episodes => Some (episode :: episodes)
      | _, _ => None
      end
  end.

(** The episodes a [list[Episode]] reference stands for; [None] when
    the reference is not a list of episodes. *)
Definition read_history (h : Heap) (episode_history : nat) : option (list Episode) :=
  match nth_error h episode_history with
  | Some (ObjList refs) => read_episodes h refs
  | _ => None
  end.

(** The loop of lines 67-82 on the heap.  [reversed(episode_history)]
    is an iterator over the list object: [pending] is one more than
    the index it reads next, and it is exhausted when that index is
    outside the list as it is then.  [None] stands for a heap that is
    not typed as the signature says. *)
Fixpoint loop_heap (mt : option Z) (ct : option (string -> Z))
    (n_episodes : Z) (episode_history steps_ref : nat)
    (pending : nat) (i : Z) (spent : Z) (h : Heap) : option Heap :=
  match pending with
  | O => Some h
  | S index =>
      match nth_error h episode_history with
      | Some (ObjList refs) =>
          match nth_error refs index with
          | None => Some h
          | Some ref =>
              match read_episode h ref with
              | Some episode =>
                  let step := step_text n_episodes i episode in
                  let verdict :=
                    match budget mt ct with
                    | Some (m, count) =>
                        let step_tokens := count step in
                        if spent + step_tokens >? m then None
                        else Some (spent + step_tokens)
                    | None => Some spent
                    end in
                  match verdict with
                  | None => Some h
                  | Some spent' =>
                      match nth_error h steps_ref with
                      | Some (ObjStrList kept) =>
                          loop_heap mt ct n_episodes episode_history steps_ref
                            index (i + 1) spent'
                            (store h steps_ref (ObjStrList (step :: kept)))
                      | _ => None
                      end
                  end
              | None => None
              end
          end
      | _ => None
      end
  end.

(** [_compile_progress] on the heap: what the call returns or raises,
    and the heap it leaves. *)
Definition _compile_progress_heap (h : Heap) (episode_history : nat)
    (mt : option Z) (ct : option (string -> Z)) : option (outcome string * Heap) :=
  if truthy_int mt && negb (truthy_fn ct)
  then Some (Raise (ValueError "count_tokens is required if max_tokens is set"), h)
  else
    let (h1, steps_ref) := alloc h (ObjStrList []) in
    match nth_error h1 episode_history with
    | Some (ObjList refs) =>
        match loop_heap mt ct (len refs) episode_history steps_ref
                (List.length refs) 0 0 h1 with
        | Some h2 =>
            match nth_error h2 steps_ref with
            | Some (ObjStrList kept) => Some (Return (join (LF ++ LF) kept), h2)
            | _ => None
            end
        | None => None
        end
    | _ => None
    end.

(** ** Python helpers *)

Lemma lstrip_no_leading_space (s : string) : leading_space (lstrip s) = false.
Proof.
  induction s as [|c r IH]; simpl; [reflexivity|].
  destruct (isspace c) eqn:E; [exact IH|]. simpl. exact E.
Qed.

Lemma lstrip_split (s : string) :
  exists pre, s = pre ++ lstrip s /\ all_space pre = true.
Proof.
  induction s as [|c r [pre [Hs Hp]]]; simpl.
  - exists EmptyString. split; reflexivity.
  - destruct (isspace c) eqn:E.
    + exists (String c pre). simpl. rewrite E, Hp. split; [f_equal; exact Hs|reflexivity].
    + exists EmptyString. split; reflexivity.
Qed.

Lemma rstrip_no_trailing_space (s : string) : trailing_space (rstrip s) = false.
Proof.
  induction s as [|c r IH]; simpl; [reflexivity|].
  destruct (rstrip r) as [|d r'] eqn:E.
  - destruct (isspace c) eqn:Ec; simpl; [reflexivity|exact Ec].
  - simpl in *. exact IH.
Qed.

Lemma rstrip_split (s : string) :
  exists post, s = rstrip s ++ post /\ all_space post = true.
Proof.
  induction s as [|c r [post [Hs Hp]]]; simpl.
  - exists EmptyString. split; reflexivity.
  - destruct (rstrip r) as [|d r'] eqn:E.
    + destruct (isspace c) eqn:Ec.
      * exists (String c post). simpl in *. rewrite Ec, Hp. split; [congruence|reflexivity].
      * exists post. simpl in *. split; congruence.
    + exists post. simpl in *. split; congruence.
Qed.

Lemma rstrip_keeps_head (s : string) :
  leading_space s = false -> leading_space (rstrip s) = false.
Proof.
  destruct s as [|c r]; simpl; [reflexivity|]. intros Hc.
  destruct (rstrip r); [rewrite Hc; simpl|simpl]; exact Hc.
Qed.

(** [s.strip()] is [s] without a leading and a trailing run of white
    space, and neither starts nor ends with white space. *)
Lemma strip_spec (s : string) :
  (exists pre post,
      s = pre ++ strip s ++ post /\ all_space pre = true /\ all_space post = true)
  /\ leading_space (strip s) = false
  /\ trailing_space (strip s) = false.
Proof.
  unfold strip. split; [|split].
  - destruct (lstrip_split s) as [pre [Hs Hp]].
    destruct (rstrip_split (lstrip s)) as [post [Hl Hq]].
    exists pre, post. rewrite <- Hl. auto.
  - apply rstrip_keeps_head, lstrip_no_leading_space.
  - apply rstrip_no_trailing_space.
Qed.

(** ** The budget scan *)

Lemma total_app (count : string -> Z) (a b : list string) :
  total count (a ++ b) = total count a + total count b.
Proof. induction a as [|x a IH]; simpl; [reflexivity|rewrite IH; lia]. Qed.

Lemma total_rev (count : string -> Z) (l : list string) :
  total count (rev l) = total count l.
Proof.
  induction l as [|x l IH]; simpl; [reflexivity|].
  rewrite total_app, IH. simpl. lia.
Qed.

Lemma gtb_true (a b : Z) : (a >? b) = true -> a > b.
Proof. rewrite Z.gtb_ltb. intros H. apply Z.ltb_lt in H. lia. Qed.

Lemma gtb_false (a b : Z) : (a >? b) = false -> a <= b.
Proof. rewrite Z.gtb_ltb. intros H. apply Z.ltb_ge in H. exact H. Qed.

(** Split on the budget test of the scan and turn it into an inequality. *)
Ltac budget_test E :=
  match goal with
  | |- context [?a >? ?b] =>
      destruct (a >? b) eqn:E;
      [apply gtb_true in E | apply gtb_false in E]
  | H : context [?a >? ?b] |- _ =>
      destruct (a >? b) eqn:E;
      [apply gtb_true in E | apply gtb_false in E]
  end.

Lemma fitting_le_length (m : Z) (count : string -> Z) (texts : list string) :
  forall spent, (fitting m count spent texts <= List.length texts)%nat.
Proof.
  induction texts as [|x r IH]; intros spent; simpl; [lia|].
  destruct (spent + count x >? m); [lia|]. specialize (IH (spent + count x)). lia.
Qed.

(** Every step the scan keeps left the running total within budget. *)
Lemma fitting_within (m : Z) (count : string -> Z) (texts : list string) :
  forall spent j, (j < fitting m count spent texts)%nat ->
    spent + total count (firstn (S j) texts) <= m.
Proof.
  induction texts as [|x r IH]; intros spent j Hj; simpl in Hj; [lia|].
  budget_test E; [lia|].
  destruct j as [|j].
  - simpl. lia.
  - change (firstn (S (S j)) (x :: r)) with (x :: firstn (S j) r).
    cbn [total]. specialize (IH (spent + count x) j). lia.
Qed.

(** The scan stops only at a step that would exceed the budget. *)
Lemma fitting_stops (m : Z) (count : string -> Z) (texts : list string) :
  forall spent, (fitting m count spent texts < List.length texts)%nat ->
    spent + total count (firstn (S (fitting m count spent texts)) texts) > m.
Proof.
  induction texts as [|x r IH]; intros spent Hk; simpl in Hk; [lia|].
  simpl fitting in *. budget_test E.
  - simpl. lia.
  - change (firstn (S (S ?k)) (x :: r)) with (x :: firstn (S k) r).
    cbn [total]. specialize (IH (spent + count x)). lia.
Qed.

Lemma fitting_total (m : Z) (count : string -> Z) (texts : list string) :
  forall spent, spent <= m ->
    spent + total count (firstn (fitting m count spent texts) texts) <= m.
Proof.
  induction texts as [|x r IH]; intros spent Hs; simpl; [lia|].
  budget_test E; simpl; [lia|].
  specialize (IH (spent + count x)). lia.
Qed.

Lemma enumerate_from_length {A : Type} (l : list A) :
  forall start, List.length (enumerate_from start l) = List.length l.
Proof. induction l as [|x l IH]; intros start; simpl; [reflexivity|now rewrite IH]. Qed.

Lemma enumerate_from_nth {A : Type} (l : list A) :
  forall start k,
    nth_error (enumerate_from start l) k =
    option_map (fun x => (start + Z.of_nat k, x)) (nth_error l k).
Proof.
  induction l as [|x l IH]; intros start k; destruct k as [|k]; simpl; try reflexivity.
  - now rewrite Z.add_0_r.
  - rewrite IH. destruct (nth_error l k); simpl; [|reflexivity].
    do 2 f_equal. lia.
Qed.

(** ** The loop *)

Lemma budget_active (m : Z) (count : string -> Z) :
  m <> 0 -> budget (Some m) (Some count) = Some (m, count).
Proof.
  intros Hm. unfold budget. simpl.
  destruct (m =? 0) eqn:E; [apply Z.eqb_eq in E; contradiction|reflexivity].
Qed.

Lemma budget_inactive (max_tokens : option Z) (count_tokens : option (string -> Z)) :
  max_tokens = None \/ max_tokens = Some 0 \/ count_tokens = None ->
  budget max_tokens count_tokens = None.
Proof.
  unfold budget. intros [H|[H|H]]; subst; simpl; try reflexivity.
  destruct max_tokens as [m|]; simpl; [|reflexivity].
  destruct (m =? 0); reflexivity.
Qed.

Lemma budget_cases (max_tokens : option Z) (count_tokens : option (string -> Z)) :
  budget max_tokens count_tokens = None \/
  exists m count,
    max_tokens = Some m /\ count_tokens = Some count /\ m <> 0 /\
    budget max_tokens count_tokens = Some (m, count).
Proof.
  destruct max_tokens as [m|], count_tokens as [count|];
    try (left; apply budget_inactive; auto; fail).
  destruct (Z.eq_dec m 0) as [->|Hm].
  - left. apply budget_inactive. auto.
  - right. exists m, count. repeat split; auto using budget_active.
Qed.

(** Without an active budget the loop keeps every step it meets. *)
Lemma loop_unbounded (max_tokens : option Z) (count_tokens : option (string -> Z))
    (n_episodes : Z) :
  budget max_tokens count_tokens = None ->
  forall items fr,
    steps (loop max_tokens count_tokens n_episodes items fr) =
    (rev (scanned n_episodes items) ++ steps fr)%list.
Proof.
  intros Hb. induction items as [|[i episode] rest IH]; intros fr; simpl.
  - reflexivity.
  - rewrite Hb, IH. simpl. now rewrite <- app_assoc.
Qed.

(** With an active budget the loop keeps the steps that fit, and
    nothing after the first that does not. *)
Lemma loop_bounded (max_tokens : option Z) (count_tokens : option (string -> Z))
    (n_episodes m : Z) (count : string -> Z) :
  budget max_tokens count_tokens = Some (m, count) ->
  forall items fr,
    steps (loop max_tokens count_tokens n_episodes items fr) =
    (rev (firstn (fitting m count (tokens fr) (scanned n_episodes items))
            (scanned n_episodes items)) ++ steps fr)%list.
Proof.
  intros Hb. induction items as [|[i episode] rest IH]; intros fr; simpl.
  - reflexivity.
  - rewrite Hb. destruct (tokens fr + count (step_text n_episodes i episode) >? m).
    + reflexivity.
    + rewrite IH. simpl. now rewrite <- app_assoc.
Qed.

Lemma scan_steps_length (episode_history : list Episode) :
  List.length (scan_steps episode_history) = List.length episode_history.
Proof.
  unfold scan_steps, scanned, enumerate, reversed.
  now rewrite length_map, enumerate_from_length, length_rev.
Qed.

(** The step the scan meets at recency index [k]. *)
Lemma scan_steps_nth (episode_history : list Episode) (k : nat) :
  nth_error (scan_steps episode_history) k =
  option_map (step_text (len episode_history) (Z.of_nat k))
    (nth_error (reversed episode_history) k).
Proof.
  unfold scan_steps, scanned, enumerate.
  rewrite nth_error_map, enumerate_from_nth.
  destruct (nth_error (reversed episode_history) k); reflexivity.
Qed.

Lemma final_steps_unbounded (episode_history : list Episode)
    (max_tokens : option Z) (count_tokens : option (string -> Z)) :
  budget max_tokens count_tokens = None ->
  steps (final_frame episode_history max_tokens count_tokens) =
  rev (scan_steps episode_history).
Proof.
  intros Hb. unfold final_frame.
  rewrite (loop_unbounded _ _ _ Hb). simpl. now rewrite app_nil_r.
Qed.

Lemma final_steps_bounded (episode_history : list Episode)
    (max_tokens : option Z) (count_tokens : option (string -> Z))
    (m : Z) (count : string -> Z) :
  budget max_tokens count_tokens = Some (m, count) ->
  steps (final_frame episode_history max_tokens count_tokens) =
  rev (firstn (fitting m count 0 (scan_steps episode_history))
         (scan_steps episode_history)).
Proof.
  intros Hb. unfold final_frame.
  rewrite (loop_bounded _ _ _ _ _ Hb). simpl. now rewrite app_nil_r.
Qed.

(** In every case the kept steps are the first steps of the scan. *)
Lemma kept_is_scan_prefix (episode_history : list Episode)
    (max_tokens : option Z) (count_tokens : option (string -> Z)) :
  let kept := steps (final_frame episode_history max_tokens count_tokens) in
  kept = rev (firstn (List.length kept) (scan_steps episode_history)) /\
  (List.length kept <= List.length episode_history)%nat.
Proof.
  simpl. destruct (budget_cases max_tokens count_tokens) as [Hb|(m & count & _ & _ & _ & Hb)].
  - rewrite (final_steps_unbounded _ _ _ Hb).
    rewrite length_rev, firstn_all, scan_steps_length. split; [reflexivity|lia].
  - rewrite (final_steps_bounded _ _ _ _ _ Hb).
    pose proof (fitting_le_length m count (scan_steps episode_history) 0) as Hk.
    rewrite scan_steps_length in Hk.
    rewrite length_rev, length_firstn, scan_steps_length.
    rewrite Nat.min_l by exact Hk. split; [reflexivity|exact Hk].
Qed.

(** Unless the guard raises, the digest is the kept steps joined. *)
Lemma compile_progress_returns (episode_history : list Episode)
    (max_tokens : option Z) (count_tokens : option (string -> Z)) :
  truthy_int max_tokens && negb (truthy_fn count_tokens) = false ->
  _compile_progress episode_history max_tokens count_tokens =
  mkRun (Return (join (LF ++ LF)
                   (steps (final_frame episode_history max_tokens count_tokens))))
        (calls (final_frame episode_history max_tokens count_tokens)).
Proof. intros Hg. unfold _compile_progress. now rewrite Hg. Qed.


(** ** Properties of the digest *)

Lemma recency_of_position (episode_history : list Episode) (k : nat)
    (episode : Episode) :
  nth_error episode_history k = Some episode ->
  (k < List.length episode_history)%nat /\
  nth_error (reversed episode_history) (List.length episode_history - S k) =
  Some episode.
Proof.
  intros Hk.
  assert (k < List.length episode_history)%nat as Hlt
    by (apply nth_error_Some; congruence).
  split; [exact Hlt|]. unfold reversed. rewrite nth_error_rev.
  destruct (Nat.ltb_spec (List.length episode_history - S k)
              (List.length episode_history)) as [_|Hge]; [|lia].
  replace (List.length episode_history - S (List.length episode_history - S k))%nat
    with k by lia.
  exact Hk.
Qed.

(** The step at chronological position [k] of the unbounded scan. *)
Lemma chronological_nth (episode_history : list Episode) (k : nat)
    (episode : Episode) :
  nth_error episode_history k = Some episode ->
  nth_error (rev (scan_steps episode_history)) k =
  Some (step_text (len episode_history)
          (len episode_history - 1 - Z.of_nat k) episode).
Proof.
  intros Hk. destruct (recency_of_position _ _ _ Hk) as [Hlt Hrec].
  rewrite nth_error_rev, scan_steps_length.
  destruct (Nat.ltb_spec k (List.length episode_history)) as [_|Hge]; [|lia].
  rewrite scan_steps_nth, Hrec. simpl. do 2 f_equal. unfold len. lia.
Qed.

(** The step kept at recency index [i]. *)
Lemma kept_nth (episode_history : list Episode) (max_tokens : option Z)
    (count_tokens : option (string -> Z)) (i : nat) (episode : Episode) :
  nth_error (reversed episode_history) i = Some episode ->
  (i < List.length (steps (final_frame episode_history max_tokens count_tokens)))%nat ->
  nth_error (rev (steps (final_frame episode_history max_tokens count_tokens))) i =
  Some (step_text (len episode_history) (Z.of_nat i) episode).
Proof.
  intros He Hi.
  destruct (kept_is_scan_prefix episode_history max_tokens count_tokens) as [Hk _].
  rewrite Hk, rev_involutive, nth_error_firstn.
  destruct (Nat.ltb_spec i
    (List.length (steps (final_frame episode_history max_tokens count_tokens))))
    as [_|Hge]; [|lia].
  now rewrite scan_steps_nth, He.
Qed.

(** C4: with no token budget the digest of N episodes is N labelled
    steps in chronological order, numbered 1..N; each of the last 4 is
    in full format, and each earlier one is its summary when it has one
    and in full format otherwise. *)
Theorem unbounded_digest_chronological (episode_history : list Episode)
    (count_tokens : option (string -> Z)) :
  exists labelled : list string,
    result (_compile_progress episode_history None count_tokens) =
      Return (join (LF ++ LF) labelled) /\
    List.length labelled = List.length episode_history /\
    forall (k : nat) (episode : Episode),
      nth_error episode_history k = Some episode ->
      nth_error labelled k =
      Some ("* Step " ++ str (Z.of_nat k + 1) ++ ": " ++
            if len episode_history - (Z.of_nat k + 1) <? 4
            then strip (indent (format episode) 2)
            else match summary episode with
                 | Some text => text
                 | None => strip (indent (format episode) 2)
                 end).
Proof.
  exists (rev (scan_steps episode_history)). split; [|split].
  - rewrite compile_progress_returns by reflexivity. simpl.
    rewrite final_steps_unbounded; [reflexivity|].
    apply budget_inactive. now left.
  - now rewrite length_rev, scan_steps_length.
  - intros k episode Hk. rewrite (chronological_nth _ _ _ Hk).
    unfold step_text, step_content, full_format.
    replace (len episode_history - (len episode_history - 1 - Z.of_nat k))
      with (Z.of_nat k + 1) by lia.
    replace (len episode_history - 1 - Z.of_nat k)
      with (len episode_history - (Z.of_nat k + 1)) by lia.
    destruct (len episode_history - (Z.of_nat k + 1) <? 4);
      destruct (summary episode); reflexivity.
Qed.

Lemma guard_with_counter (max_tokens : option Z) (count : string -> Z) :
  truthy_int max_tokens && negb (truthy_fn (Some count)) = false.
Proof. simpl. apply andb_false_r. Qed.

Lemma kept_count_bounded (episode_history : list Episode) (m : Z)
    (count : string -> Z) :
  m <> 0 ->
  steps (final_frame episode_history (Some m) (Some count)) =
    rev (firstn (fitting m count 0 (scan_steps episode_history))
           (scan_steps episode_history)) /\
  List.length (steps (final_frame episode_history (Some m) (Some count))) =
    fitting m count 0 (scan_steps episode_history).
Proof.
  intros Hm.
  rewrite (final_steps_bounded _ _ _ _ _ (budget_active m count Hm)).
  split; [reflexivity|].
  rewrite length_rev, length_firstn. apply Nat.min_l, fitting_le_length.
Qed.

(** What a call that passes the guard returns: the kept steps joined,
    as many as the ledger has when no budget is active and as many as
    fit otherwise, each the labelled step of the episode at its recency
    index. *)
Lemma returned_steps (episode_history : list Episode) (mt : option Z)
    (ct : option (string -> Z)) :
  truthy_int mt && negb (truthy_fn ct) = false ->
  let kept := steps (final_frame episode_history mt ct) in
  result (_compile_progress episode_history mt ct) = Return (join (LF ++ LF) kept) /\
  (List.length kept <= List.length episode_history)%nat /\
  (mt = None \/ mt = Some 0 -> List.length kept = List.length episode_history) /\
  (forall m count, mt = Some m -> ct = Some count -> m <> 0 ->
     List.length kept = fitting m count 0 (scan_steps episode_history)) /\
  (forall i : nat, (i < List.length kept)%nat ->
     exists episode : Episode,
       nth_error (reversed episode_history) i = Some episode /\
       nth_error (rev kept) i =
       Some (step_text (len episode_history) (Z.of_nat i) episode)).
Proof.
  intros Hg kept.
  destruct (kept_is_scan_prefix episode_history mt ct) as [_ Hle].
  split; [now rewrite compile_progress_returns by exact Hg|].
  split; [exact Hle|]. split; [|split].
  - intros Hmt. subst kept.
    rewrite final_steps_unbounded
      by (apply budget_inactive; destruct Hmt; auto).
    now rewrite length_rev, scan_steps_length.
  - intros m count -> -> Hm. subst kept.
    now destruct (kept_count_bounded episode_history m count Hm) as [_ ->].
  - intros i Hi.
    destruct (nth_error (reversed episode_history) i) as [episode|] eqn:He.
    + exists episode. split; [reflexivity|]. exact (kept_nth _ _ _ _ _ He Hi).
    + apply nth_error_None in He. unfold reversed in He.
      rewrite length_rev in He. fold kept in Hle. lia.
Qed.

(** C5: the digest a call returns is made of kept steps whose body, for
    the episode at recency index [i] (0 is the most recent), is the
    [format()] text indented by 2 and stripped of leading and trailing
    white space when [i < 4] or the episode has no summary, and the
    summary text otherwise. *)
Theorem tiering_rule (episode_history : list Episode) (mt : option Z)
    (ct : option (string -> Z)) :
  truthy_int mt && negb (truthy_fn ct) = false ->
  exists kept : list string,
    result (_compile_progress episode_history mt ct) =
      Return (join (LF ++ LF) kept) /\
    (List.length kept <= List.length episode_history)%nat /\
    (mt = None \/ mt = Some 0 -> List.length kept = List.length episode_history) /\
    (forall m count, mt = Some m -> ct = Some count -> m <> 0 ->
       List.length kept = fitting m count 0 (scan_steps episode_history)) /\
    forall i : nat, (i < List.length kept)%nat ->
      exists (episode : Episode) (body : string),
        nth_error (reversed episode_history) i = Some episode /\
        nth_error (rev kept) i =
          Some ("* Step " ++ str (len episode_history - Z.of_nat i) ++ ": " ++ body) /\
        body = (if Z.of_nat i <? 4
                then strip (indent (format episode) 2)
                else match summary episode with
                     | Some text => text
                     | None => strip (indent (format episode) 2)
                     end) /\
        ((i < 4)%nat \/ summary episode = None ->
           body = strip (indent (format episode) 2) /\
           leading_space body = false /\ trailing_space body = false) /\
        (forall text, (4 <= i)%nat -> summary episode = Some text -> body = text).
Proof.
  intros Hg.
  destruct (returned_steps episode_history mt ct Hg)
    as (Hres & Hle & Hall & Hfit & Hnth).
  exists (steps (final_frame episode_history mt ct)).
  repeat (split; [assumption|]).
  intros i Hi. destruct (Hnth i Hi) as (episode & He & Hstep).
  exists episode, (step_content (Z.of_nat i) episode).
  split; [exact He|]. split; [exact Hstep|].
  unfold step_content, full_format.
  destruct (strip_spec (indent (format episode) 2)) as (_ & Hl & Ht).
  destruct (Z.ltb_spec (Z.of_nat i) 4) as [Hlt|Hge]; simpl.
  - split; [reflexivity|]. split; [auto|]. intros text Hi4. lia.
  - destruct (summary episode) as [text|]; simpl.
    + split; [reflexivity|]. split.
      * intros [Hi4|Hnone]; [lia|discriminate].
      * intros text' _ Heq. now injection Heq.
    + split; [reflexivity|]. split; [auto|]. intros text _ Heq. discriminate.
Qed.

(** C6: the digest a call returns is the kept steps, oldest first,
    joined by a blank line; each kept step belongs to one episode, the
    one at its recency index [i], and is labelled with the step number
    [n - i], between 1 for the oldest of the [n] episodes and [n] for
    the newest: its text is "* Step ", the number, ": " and the body. *)
Theorem step_labels (episode_history : list Episode) (mt : option Z)
    (ct : option (string -> Z)) :
  truthy_int mt && negb (truthy_fn ct) = false ->
  exists kept : list string,
    result (_compile_progress episode_history mt ct) =
      Return (join (LF ++ LF) kept) /\
    (List.length kept <= List.length episode_history)%nat /\
    (mt = None \/ mt = Some 0 -> List.length kept = List.length episode_history) /\
    (forall m count, mt = Some m -> ct = Some count -> m <> 0 ->
       List.length kept = fitting m count 0 (scan_steps episode_history)) /\
    (forall i : nat, (i < List.length kept)%nat ->
       exists episode : Episode,
         nth_error (reversed episode_history) i = Some episode /\
         1 <= len episode_history - Z.of_nat i <= len episode_history /\
         nth_error (rev kept) i =
         Some ("* Step " ++ str (len episode_history - Z.of_nat i) ++ ": " ++
               step_content (Z.of_nat i) episode)) /\
    (forall (first second : string) (rest : list string),
        join (LF ++ LF) [first] = first /\
        join (LF ++ LF) (first :: second :: rest) =
        first ++ LF ++ LF ++ join (LF ++ LF) (second :: rest)).
Proof.
  intros Hg.
  destruct (returned_steps episode_history mt ct Hg)
    as (Hres & Hle & Hall & Hfit & Hnth).
  exists (steps (final_frame episode_history mt ct)).
  repeat (split; [assumption|]). split.
  - intros i Hi. destruct (Hnth i Hi) as (episode & He & Hstep).
    exists episode. split; [exact He|]. split; [unfold len; lia|exact Hstep].
  - intros first second rest. split; reflexivity.
Qed.

(** C1 (as the code has it): for a positive [max_tokens] the costs of
    the kept steps, each measured by [count_tokens], add up to at most
    [max_tokens], and the steps dropped are an oldest-first prefix of
    the steps of the unbounded digest. *)
Theorem kept_steps_within_budget (episode_history : list Episode) (m : Z)
    (count : string -> Z) :
  0 < m ->
  let kept := steps (final_frame episode_history (Some m) (Some count)) in
  result (_compile_progress episode_history (Some m) (Some count)) =
    Return (join (LF ++ LF) kept) /\
  total count kept <= m /\
  exists dropped : list string,
    steps (final_frame episode_history None None) = (dropped ++ kept)%list /\
    result (_compile_progress episode_history None None) =
      Return (join (LF ++ LF) (dropped ++ kept)).
Proof.
  intros Hm kept.
  assert (m <> 0) as Hm0 by lia.
  destruct (kept_count_bounded episode_history m count Hm0) as [Hkept _].
  assert (steps (final_frame episode_history None None) =
          rev (scan_steps episode_history)) as Hall
    by (apply final_steps_unbounded, budget_inactive; now left).
  split; [|split].
  - now rewrite compile_progress_returns by apply guard_with_counter.
  - subst kept. rewrite Hkept, total_rev.
    pose proof (fitting_total m count (scan_steps episode_history) 0) as Hfit.
    lia.
  - exists (rev (skipn (fitting m count 0 (scan_steps episode_history))
                   (scan_steps episode_history))).
    assert (steps (final_frame episode_history None None) =
            (rev (skipn (fitting m count 0 (scan_steps episode_history))
                    (scan_steps episode_history)) ++ kept)%list) as Hsplit.
    { subst kept. rewrite Hkept, Hall, <- rev_app_distr.
      now rewrite firstn_skipn. }
    split; [exact Hsplit|].
    rewrite compile_progress_returns by reflexivity. simpl.
    now rewrite Hsplit.
Qed.

(** C3: with an active budget the kept steps are exactly the first [k]
    steps of the scan, each whole: every one of them left the running
    total within [max_tokens], and the scan stopped at the first step
    whose cost would push the running total over it; when the most
    recent step alone exceeds the budget the digest is the empty
    string. *)
Theorem hard_cutoff (episode_history : list Episode) (m : Z)
    (count : string -> Z) :
  m <> 0 ->
  let texts := scan_steps episode_history in
  let kept := steps (final_frame episode_history (Some m) (Some count)) in
  let k := List.length kept in
  result (_compile_progress episode_history (Some m) (Some count)) =
    Return (join (LF ++ LF) kept) /\
  kept = rev (firstn k texts) /\
  (forall j : nat, (j < k)%nat -> total count (firstn (S j) texts) <= m) /\
  ((k < List.length texts)%nat -> total count (firstn (S k) texts) > m) /\
  (forall newest : string,
      nth_error texts 0 = Some newest -> count newest > m ->
      result (_compile_progress episode_history (Some m) (Some count)) =
        Return EmptyString).
Proof.
  intros Hm texts kept k.
  destruct (kept_count_bounded episode_history m count Hm) as [Hkept Hlen].
  fold texts in Hkept, Hlen. fold kept in Hkept, Hlen. fold k in Hlen.
  assert (result (_compile_progress episode_history (Some m) (Some count)) =
          Return (join (LF ++ LF) kept)) as Hres
    by now rewrite compile_progress_returns by apply guard_with_counter.
  split; [exact Hres|]. split; [now rewrite Hlen|]. split; [|split].
  - intros j Hj. rewrite Hlen in Hj.
    pose proof (fitting_within m count texts 0 j Hj). lia.
  - intros Hk. rewrite Hlen in *.
    pose proof (fitting_stops m count texts 0 Hk). lia.
  - intros newest Hnew Hcost. rewrite Hres, Hkept.
    destruct texts as [|first rest]; [discriminate|].
    injection Hnew as ->. simpl.
    assert ((count newest >? m) = true) as ->
      by (rewrite Z.gtb_ltb; apply Z.ltb_lt; lia).
    reflexivity.
Qed.

(** C2 (as the code has it): with 6 episodes, [max_tokens = 100] and a
    counter under which each full-format step costs 30 and each
    summarised step 5, the scan keeps steps 6, 5 and 4 (90 tokens) and
    stops at step 3; the digest is steps 4, 5 and 6. *)
Theorem six_episodes_budget_100 (e1 e2 e3 e4 e5 e6 : Episode)
    (count : string -> Z) :
  (forall (i : Z) (episode : Episode),
      In (i, episode) (enumerate (reversed [e1; e2; e3; e4; e5; e6])) ->
      count (step_text 6 i episode) = if full_format i episode then 30 else 5) ->
  result (_compile_progress [e1; e2; e3; e4; e5; e6] (Some 100) (Some count)) =
    Return (("* Step 4: " ++ strip (indent (format e4) 2)) ++ LF ++ LF ++
            ("* Step 5: " ++ strip (indent (format e5) 2)) ++ LF ++ LF ++
            ("* Step 6: " ++ strip (indent (format e6) 2))) /\
  List.length (steps (final_frame [e1; e2; e3; e4; e5; e6] (Some 100) (Some count))) = 3%nat.
Proof.
  intros Hcost.
  assert (count (step_text 6 0 e6) = 30) as H6 by (apply (Hcost 0 e6); simpl; auto).
  assert (count (step_text 6 1 e5) = 30) as H5 by (apply (Hcost 1 e5); simpl; auto).
  assert (count (step_text 6 2 e4) = 30) as H4 by (apply (Hcost 2 e4); simpl; auto).
  assert (count (step_text 6 3 e3) = 30) as H3 by (apply (Hcost 3 e3); simpl; auto).
  rewrite compile_progress_returns by apply guard_with_counter.
  unfold final_frame, enumerate, reversed, len.
  cbn [rev app enumerate_from List.length Z.of_nat Pos.of_succ_nat Pos.succ
       loop budget truthy_int truthy_fn Z.eqb negb andb steps tokens calls
       Z.add Pos.add].
  rewrite H6. cbn [Z.add Z.gtb Z.compare Pos.compare Pos.compare_cont].
  rewrite H5. cbn [Z.add Pos.add Z.gtb Z.compare Pos.compare Pos.compare_cont].
  rewrite H4. cbn [Z.add Pos.add Z.gtb Z.compare Pos.compare Pos.compare_cont].
  rewrite H3. cbn [Z.add Pos.add Z.gtb Z.compare Pos.compare Pos.compare_cont].
  split; reflexivity.
Qed.

(** C7 (as the code has it): a call with a non-zero [max_tokens] and no
    [count_tokens] raises [ValueError] before any collaborator is
    called; a call with [count_tokens] given, or with [max_tokens]
    absent or zero, raises nothing and returns a digest. *)
Theorem budget_without_counter_raises (episode_history : list Episode)
    (max_tokens : option Z) (count_tokens : option (string -> Z)) :
  (forall m : Z, max_tokens = Some m -> m <> 0 -> count_tokens = None ->
     _compile_progress episode_history max_tokens count_tokens =
     mkRun (Raise (ValueError "count_tokens is required if max_tokens is set")) []) /\
  (max_tokens = None \/ max_tokens = Some 0 \/ count_tokens <> None ->
     exists digest : string,
       result (_compile_progress episode_history max_tokens count_tokens) =
       Return digest).
Proof.
  split.
  - intros m -> Hm ->. unfold _compile_progress. simpl.
    destruct (m =? 0) eqn:E; [apply Z.eqb_eq in E; contradiction|reflexivity].
  - intros Hok. eexists. rewrite compile_progress_returns; [reflexivity|].
    destruct Hok as [->|[->|Hc]]; try reflexivity.
    destruct count_tokens; [|contradiction]. apply guard_with_counter.
Qed.

(** The guard of line 76 alone decides what the loop does with the
    budget arguments. *)
Lemma loop_same_budget (max_tokens max_tokens' : option Z)
    (count_tokens count_tokens' : option (string -> Z)) (n_episodes : Z) :
  budget max_tokens count_tokens = budget max_tokens' count_tokens' ->
  forall items fr,
    loop max_tokens count_tokens n_episodes items fr =
    loop max_tokens' count_tokens' n_episodes items fr.
Proof.
  intros Hb. induction items as [|[i episode] rest IH]; intros fr; simpl.
  - reflexivity.
  - rewrite <- Hb. destruct (budget max_tokens count_tokens) as [[m count]|].
    + destruct (tokens fr + count (step_text n_episodes i episode) >? m);
        [reflexivity|apply IH].
    + apply IH.
Qed.

(** Without an active budget [count_tokens] is never called. *)
Lemma loop_unbounded_calls (max_tokens : option Z)
    (count_tokens : option (string -> Z)) (n_episodes : Z) :
  budget max_tokens count_tokens = None ->
  forall items fr text,
    ~ In (CallCountTokens text) (calls fr) ->
    ~ In (CallCountTokens text)
        (calls (loop max_tokens count_tokens n_episodes items fr)).
Proof.
  intros Hb. induction items as [|[i episode] rest IH]; intros fr text Hfr; simpl.
  - exact Hfr.
  - rewrite Hb. apply IH. simpl. intros Hin. apply in_app_or in Hin.
    destruct Hin as [Hin|Hin]; [contradiction|].
    destruct (full_format i episode); simpl in Hin; [|contradiction].
    destruct Hin as [Hin|[]]. discriminate.
Qed.

Lemma enumerate_from_In {A : Type} (l : list A) :
  forall start i x, In (i, x) (enumerate_from start l) -> In x l.
Proof.
  induction l as [|y l IH]; intros start i x Hin; simpl in *; [exact Hin|].
  destruct Hin as [Heq|Hin]; [left; congruence|right; eauto].
Qed.

(** Every call the loop makes reads the ledger or measures a step. *)
Lemma loop_calls_read_only (episode_history : list Episode)
    (max_tokens : option Z) (count_tokens : option (string -> Z)) :
  forall items fr,
    (forall i episode, In (i, episode) items ->
       In episode episode_history /\
       In (step_text (len episode_history) i episode) (scan_steps episode_history)) ->
    Forall (read_only_call episode_history) (calls fr) ->
    Forall (read_only_call episode_history)
      (calls (loop max_tokens count_tokens (len episode_history) items fr)).
Proof.
  induction items as [|[i episode] rest IH]; intros fr Hitems Hfr; simpl.
  - exact Hfr.
  - destruct (Hitems i episode (or_introl eq_refl)) as [Hep Hstep].
    assert (Forall (read_only_call episode_history)
              (calls fr ++ if full_format i episode then [CallFormat episode] else []))
      as Hlog.
    { apply Forall_app. split; [exact Hfr|].
      destruct (full_format i episode); repeat constructor. exact Hep. }
    assert (Forall (read_only_call episode_history)
              ((calls fr ++ if full_format i episode then [CallFormat episode] else [])
               ++ [CallCountTokens (step_text (len episode_history) i episode)]))
      as Hlog'.
    { apply Forall_app. split; [exact Hlog|]. repeat constructor. exact Hstep. }
    assert (forall i0 episode0, In (i0, episode0) rest ->
              In episode0 episode_history /\
              In (step_text (len episode_history) i0 episode0)
                 (scan_steps episode_history)) as Hrest
      by (intros; apply Hitems; now right).
    destruct (budget max_tokens count_tokens) as [[m count]|].
    + destruct (tokens fr + count (step_text (len episode_history) i episode) >? m).
      * exact Hlog'.
      * apply IH; [exact Hrest|exact Hlog'].
    + apply IH; [exact Hrest|exact Hlog].
Qed.

Lemma compile_progress_read_only (episode_history : list Episode)
    (max_tokens : option Z) (count_tokens : option (string -> Z)) :
  Forall (read_only_call episode_history)
    (trace (_compile_progress episode_history max_tokens count_tokens)).
Proof.
  unfold _compile_progress.
  destruct (truthy_int max_tokens && negb (truthy_fn count_tokens)); simpl.
  - constructor.
  - apply loop_calls_read_only; [|constructor].
    intros i episode Hin. split.
    + apply in_rev. exact (enumerate_from_In _ _ _ _ Hin).
    + unfold scan_steps, scanned.
      change (step_text (len episode_history) i episode)
        with ((fun item => step_text (len episode_history) (fst item) (snd item))
                (i, episode)).
      apply in_map. exact Hin.
Qed.

(** C9: with [max_tokens = 0] and no [count_tokens] nothing is raised
    and the call is the unbounded one: every episode is rendered and
    [count_tokens] is never called. *)
Theorem zero_budget_is_unbounded (episode_history : list Episode) :
  _compile_progress episode_history (Some 0) None =
    _compile_progress episode_history None None /\
  result (_compile_progress episode_history (Some 0) None) =
    Return (join (LF ++ LF) (rev (scan_steps episode_history))) /\
  List.length (steps (final_frame episode_history (Some 0) None)) =
    List.length episode_history /\
  (forall text : string,
      ~ In (CallCountTokens text)
          (trace (_compile_progress episode_history (Some 0) None))).
Proof.
  assert (budget (Some 0) None = None) as Hb by reflexivity.
  split; [|split; [|split]].
  - unfold _compile_progress, final_frame. simpl.
    now rewrite (loop_same_budget (Some 0) None None None).
  - rewrite compile_progress_returns by reflexivity. simpl.
    now rewrite (final_steps_unbounded _ _ _ Hb).
  - now rewrite (final_steps_unbounded _ _ _ Hb), length_rev, scan_steps_length.
  - intros text. rewrite compile_progress_returns by reflexivity. simpl.
    apply (loop_unbounded_calls _ _ _ Hb). simpl. auto.
Qed.

(** C10: [get_messages] yields nothing when the digest is the empty
    string, and otherwise one system message: the header
    "## Progress on your Task so far", a blank line and the digest. *)
Theorem get_messages_header (self : ActionHistoryComponent) :
  exists progress : string,
    result (_compile_progress (event_history self)
              (Some (max_tokens (config self))) (Some (count_tokens self))) =
      Return progress /\
    (progress = EmptyString -> get_messages self = Return []) /\
    (progress <> EmptyString ->
       get_messages self =
       Return [mkChatMessage SYSTEM
                 ("## Progress on your Task so far" ++ LF ++ LF ++ progress)]).
Proof.
  unfold get_messages.
  rewrite compile_progress_returns by apply guard_with_counter. cbn [result].
  set (progress := join (LF ++ LF) _).
  exists progress. split; [reflexivity|]. split.
  - intros ->. reflexivity.
  - intros Hne. destruct progress as [|c r]; [contradiction|reflexivity].
Qed.

(** ** The log of calls *)

Lemma count_tokens_calls_app (a b : list Call) :
  count_tokens_calls (a ++ b) = (count_tokens_calls a + count_tokens_calls b)%nat.
Proof.
  induction a as [|[episode|text] a IH]; simpl; [reflexivity|exact IH|now rewrite IH].
Qed.

Lemma format_calls_app (a b : list Call) :
  format_calls (a ++ b) = (format_calls a + format_calls b)%nat.
Proof.
  induction a as [|[episode|text] a IH]; simpl; [reflexivity|now rewrite IH|exact IH].
Qed.

(** Without an active budget the loop adds no [count_tokens] call to
    the log. *)
Lemma loop_counts_unbounded (mt : option Z) (ct : option (string -> Z))
    (n_episodes : Z) :
  budget mt ct = None ->
  forall items fr,
    count_tokens_calls (calls fr) = O ->
    count_tokens_calls (calls (loop mt ct n_episodes items fr)) = O.
Proof.
  intros Hb. induction items as [|[i episode] rest IH]; intros fr Hfr; simpl.
  - exact Hfr.
  - rewrite Hb. apply IH. simpl. rewrite count_tokens_calls_app, Hfr.
    destruct (full_format i episode); reflexivity.
Qed.

(** ** When the digest is empty *)

Lemma step_text_nonempty (n_episodes i : Z) (episode : Episode) :
  step_text n_episodes i episode <> EmptyString.
Proof. unfold step_text. simpl. discriminate. Qed.

Lemma join_empty_iff (sep : string) (l : list string) :
  (forall text, In text l -> text <> EmptyString) ->
  (join sep l = EmptyString <-> l = []).
Proof.
  intros Hne. split; [|intros ->; reflexivity].
  destruct l as [|x rest]; [reflexivity|]. intros Hj. exfalso.
  assert (x <> EmptyString) as Hx by (apply Hne; now left).
  destruct x as [|c x]; [contradiction|].
  unfold join in Hj. simpl in Hj. destruct rest; discriminate.
Qed.

Lemma scan_steps_nonempty (episode_history : list Episode) (text : string) :
  In text (scan_steps episode_history) -> text <> EmptyString.
Proof.
  unfold scan_steps, scanned. intros Hin. apply in_map_iff in Hin.
  destruct Hin as [[i episode] [<- _]]. apply step_text_nonempty.
Qed.

Lemma kept_steps_nonempty (episode_history : list Episode)
    (mt : option Z) (ct : option (string -> Z)) (text : string) :
  In text (steps (final_frame episode_history mt ct)) -> text <> EmptyString.
Proof.
  destruct (kept_is_scan_prefix episode_history mt ct) as [Hk _]. rewrite Hk.
  intros Hin. apply in_rev in Hin. apply scan_steps_nonempty with episode_history.
  revert Hin. generalize (List.length (steps (final_frame episode_history mt ct))).
  intros k Hin. rewrite <- (firstn_skipn k (scan_steps episode_history)).
  apply in_or_app. now left.
Qed.

(** The digest is the empty string exactly when no step is kept. *)
Lemma digest_empty_iff_nothing_kept (episode_history : list Episode)
    (mt : option Z) (ct : option (string -> Z)) :
  join (LF ++ LF) (steps (final_frame episode_history mt ct)) = EmptyString <->
  steps (final_frame episode_history mt ct) = [].
Proof. apply join_empty_iff. intros text. apply kept_steps_nonempty. Qed.

Lemma fitting_zero_iff (m : Z) (count : string -> Z) (spent : Z)
    (texts : list string) :
  fitting m count spent texts = O <->
  texts = [] \/ exists first rest, texts = first :: rest /\ spent + count first > m.
Proof.
  destruct texts as [|x r]; simpl.
  - split; auto.
  - budget_test E.
    + split; [intros _; right; exists x, r; auto|reflexivity].
    + split; [discriminate|]. intros [Hnil|(first & rest & Heq & Hgt)].
      * discriminate.
      * injection Heq as <- <-. lia.
Qed.

Lemma scan_steps_snoc (older : list Episode) (newest : Episode) :
  scan_steps (older ++ [newest]) =
  step_text (len (older ++ [newest])) 0 newest ::
  scanned (len (older ++ [newest])) (enumerate_from 1 (rev older)).
Proof.
  unfold scan_steps, scanned, enumerate, reversed. now rewrite rev_unit.
Qed.

Lemma scan_steps_nil_iff (episode_history : list Episode) :
  scan_steps episode_history = [] <-> episode_history = [].
Proof.
  split; [|intros ->; reflexivity]. intros Hs.
  apply length_zero_iff_nil. rewrite <- scan_steps_length, Hs. reflexivity.
Qed.

(** With an active budget nothing is kept exactly when the ledger is
    empty or its newest step alone is over budget. *)
Lemma nothing_kept_bounded (episode_history : list Episode) (m : Z)
    (count : string -> Z) :
  m <> 0 ->
  (steps (final_frame episode_history (Some m) (Some count)) = [] <->
   episode_history = [] \/
   exists older newest,
     episode_history = (older ++ [newest])%list /\
     count (step_text (len episode_history) 0 newest) > m).
Proof.
  intros Hm.
  destruct (kept_count_bounded episode_history m count Hm) as [_ Hlen].
  rewrite <- length_zero_iff_nil, Hlen, fitting_zero_iff. split.
  - intros [Hnil|(first & rest & Heq & Hgt)].
    + left. now apply scan_steps_nil_iff.
    + right. destruct episode_history as [|newest older _] using rev_ind.
      * discriminate.
      * exists older, newest. split; [reflexivity|].
        rewrite scan_steps_snoc in Heq. injection Heq as <- _. lia.
  - intros [->|(older & newest & -> & Hgt)]; [now left|].
    right. rewrite scan_steps_snoc. eexists _, _. split; [reflexivity|]. lia.
Qed.

Lemma nothing_kept_unbounded (episode_history : list Episode)
    (mt : option Z) (ct : option (string -> Z)) :
  budget mt ct = None ->
  (steps (final_frame episode_history mt ct) = [] <-> episode_history = []).
Proof.
  intros Hb. rewrite (final_steps_unbounded _ _ _ Hb).
  rewrite <- scan_steps_nil_iff. split.
  - intros Hr. apply (f_equal (@rev string)) in Hr.
    now rewrite rev_involutive in Hr.
  - intros ->. reflexivity.
Qed.

(** X1: with an active budget the digest is the empty string exactly
    when the ledger is empty or its newest step alone costs more than
    [max_tokens]; without a budget, exactly when the ledger is empty. *)
Theorem digest_empty_iff (episode_history : list Episode) (m : Z)
    (count : string -> Z) :
  (m <> 0 ->
   (result (_compile_progress episode_history (Some m) (Some count)) =
      Return EmptyString <->
    episode_history = [] \/
    exists older newest,
      episode_history = (older ++ [newest])%list /\
      count (step_text (len episode_history) 0 newest) > m)) /\
  (forall ct : option (string -> Z),
      result (_compile_progress episode_history None ct) = Return EmptyString <->
      episode_history = []).
Proof.
  split.
  - intros Hm.
    rewrite compile_progress_returns by apply guard_with_counter. cbn [result].
    rewrite <- (nothing_kept_bounded episode_history m count Hm).
    rewrite <- digest_empty_iff_nothing_kept.
    split; [intros Hret; now injection Hret|intros ->; reflexivity].
  - intros ct. rewrite compile_progress_returns by reflexivity. cbn [result].
    rewrite <- (nothing_kept_unbounded episode_history None ct eq_refl).
    rewrite <- digest_empty_iff_nothing_kept.
    split; [intros Hret; now injection Hret|intros ->; reflexivity].
Qed.

(** [get_messages] yields nothing exactly when no step is kept. *)
Lemma get_messages_silent_nothing_kept (self : ActionHistoryComponent) :
  get_messages self = Return [] <->
  steps (final_frame (event_history self) (Some (max_tokens (config self)))
           (Some (count_tokens self))) = [].
Proof.
  rewrite <- digest_empty_iff_nothing_kept. unfold get_messages.
  rewrite compile_progress_returns by apply guard_with_counter. cbn [result].
  set (progress := join (LF ++ LF) _).
  destruct progress as [|c r]; simpl; split; try reflexivity; discriminate.
Qed.

(** X2: [get_messages] yields no message exactly when the ledger is
    empty, or the configured [max_tokens] is not zero and the newest
    step alone costs more than it. *)
Theorem get_messages_silent_iff (self : ActionHistoryComponent) :
  get_messages self = Return [] <->
  event_history self = [] \/
  (max_tokens (config self) <> 0 /\
   exists older newest,
     event_history self = (older ++ [newest])%list /\
     count_tokens self (step_text (len (event_history self)) 0 newest) >
     max_tokens (config self)).
Proof.
  rewrite get_messages_silent_nothing_kept.
  destruct (Z.eq_dec (max_tokens (config self)) 0) as [Hz|Hnz].
  - rewrite nothing_kept_unbounded
      by (apply budget_inactive; right; left; now rewrite Hz).
    split; [now left|]. intros [H|[Hm _]]; [exact H|contradiction].
  - rewrite (nothing_kept_bounded _ _ _ Hnz). split.
    + intros [H|H]; [now left|right; now split].
    + intros [H|[_ H]]; [now left|now right].
Qed.

(** X3: with a negative [max_tokens] and a counter that never returns
    a negative cost, no step fits and [get_messages] yields nothing. *)
Theorem negative_budget_is_silent (self : ActionHistoryComponent) :
  max_tokens (config self) < 0 ->
  (forall text, 0 <= count_tokens self text) ->
  get_messages self = Return [].
Proof.
  intros Hneg Hcount. apply get_messages_silent_nothing_kept.
  apply nothing_kept_bounded; [lia|].
  destruct (event_history self) as [|newest older _] using rev_ind; [now left|].
  right. exists older, newest. split; [reflexivity|].
  specialize (Hcount (step_text (len (older ++ [newest])) 0 newest)). lia.
Qed.

(** X4: a component configured with [max_tokens = 0] has no budget:
    for a ledger that is not empty [get_messages] yields the one
    message with every step of the ledger, and [count_tokens] is never
    called. *)
Theorem zero_config_sends_full_history (self : ActionHistoryComponent) :
  max_tokens (config self) = 0 ->
  event_history self <> [] ->
  get_messages self =
    Return [mkChatMessage SYSTEM
              ("## Progress on your Task so far" ++ LF ++ LF ++
               join (LF ++ LF) (rev (scan_steps (event_history self))))] /\
  count_tokens_calls
    (trace (_compile_progress (event_history self)
              (Some (max_tokens (config self))) (Some (count_tokens self)))) = O.
Proof.
  intros Hz Hne.
  assert (budget (Some (max_tokens (config self))) (Some (count_tokens self)) = None)
    as Hb by (apply budget_inactive; right; left; now rewrite Hz).
  split.
  - assert (get_messages self <> Return []) as Hloud.
    { intros Hs. apply get_messages_silent_nothing_kept in Hs.
      apply (nothing_kept_unbounded _ _ _ Hb) in Hs. contradiction. }
    revert Hloud. unfold get_messages.
    rewrite compile_progress_returns by apply guard_with_counter. cbn [result].
    rewrite (final_steps_unbounded _ _ _ Hb).
    destruct (join (LF ++ LF) (rev (scan_steps (event_history self)))) as [|c r];
      simpl; [contradiction|reflexivity].
  - rewrite compile_progress_returns by apply guard_with_counter. cbn [trace].
    unfold final_frame. apply loop_counts_unbounded; [exact Hb|reflexivity].
Qed.

(** ** Budgets compared *)

Lemma fitting_monotone (m m' : Z) (count : string -> Z) (texts : list string) :
  m <= m' ->
  forall spent, (fitting m count spent texts <= fitting m' count spent texts)%nat.
Proof.
  intros Hmm. induction texts as [|x r IH]; intros spent; simpl; [lia|].
  destruct (spent + count x >? m) eqn:E; [lia|]. apply gtb_false in E.
  destruct (spent + count x >? m') eqn:E'; [apply gtb_true in E'; lia|].
  specialize (IH (spent + count x)). lia.
Qed.

Lemma fitting_all (m : Z) (count : string -> Z) (texts : list string) :
  (forall text, 0 <= count text) ->
  forall spent, spent + total count texts <= m ->
    fitting m count spent texts = List.length texts.
Proof.
  intros Hpos. induction texts as [|x r IH]; intros spent Hfit; simpl in *;
    [reflexivity|].
  assert (0 <= total count r) as Hr
    by (clear - Hpos; induction r as [|y r IHr]; simpl;
        [lia|specialize (Hpos y); lia]).
  specialize (Hpos x).
  destruct (spent + count x >? m) eqn:E; [apply gtb_true in E; lia|].
  rewrite IH by lia. reflexivity.
Qed.

(** X5: a larger budget never drops a step a smaller one keeps: the
    steps kept under [m] are the newest of the steps kept under any
    [m' >= m]. *)
Theorem larger_budget_keeps_more (episode_history : list Episode) (m m' : Z)
    (count : string -> Z) :
  m <> 0 -> m' <> 0 -> m <= m' ->
  exists extra : list string,
    steps (final_frame episode_history (Some m') (Some count)) =
    (extra ++ steps (final_frame episode_history (Some m) (Some count)))%list.
Proof.
  intros Hm Hm' Hle.
  destruct (kept_count_bounded episode_history m count Hm) as [-> _].
  destruct (kept_count_bounded episode_history m' count Hm') as [-> _].
  pose proof (fitting_monotone m m' count (scan_steps episode_history) Hle 0) as Hk.
  set (texts := scan_steps episode_history) in *.
  set (k := fitting m count 0 texts) in *.
  set (k' := fitting m' count 0 texts) in *.
  exists (rev (skipn k (firstn k' texts))).
  rewrite <- rev_app_distr. f_equal.
  rewrite <- (firstn_skipn k (firstn k' texts)) at 1.
  f_equal. rewrite firstn_firstn. now rewrite Nat.min_l by exact Hk.
Qed.

(** X6: when the counter never returns a negative cost and the costs
    of all the steps add up to at most [max_tokens], nothing is dropped:
    the digest is the unbounded one. *)
Theorem ample_budget_is_unbounded (episode_history : list Episode) (m : Z)
    (count : string -> Z) :
  m <> 0 ->
  (forall text, 0 <= count text) ->
  total count (scan_steps episode_history) <= m ->
  result (_compile_progress episode_history (Some m) (Some count)) =
  result (_compile_progress episode_history None None).
Proof.
  intros Hm Hpos Hfit.
  rewrite !compile_progress_returns by (reflexivity || apply guard_with_counter).
  cbn [result]. do 2 f_equal.
  destruct (kept_count_bounded episode_history m count Hm) as [-> _].
  rewrite (final_steps_unbounded episode_history None None eq_refl).
  rewrite (fitting_all m count _ Hpos 0) by lia. now rewrite firstn_all.
Qed.

(** ** How far the scan reads *)

#[local] Arguments Nat.min : simpl never.

Lemma loop_counts_bounded (mt : option Z) (ct : option (string -> Z))
    (n_episodes m : Z) (count : string -> Z) :
  budget mt ct = Some (m, count) ->
  forall items fr,
    let reach :=
      Nat.min (S (fitting m count (tokens fr) (scanned n_episodes items)))
              (List.length items) in
    count_tokens_calls (calls (loop mt ct n_episodes items fr)) =
      (count_tokens_calls (calls fr) + reach)%nat /\
    (format_calls (calls (loop mt ct n_episodes items fr)) <=
       format_calls (calls fr) + reach)%nat.
Proof.
  intros Hb. induction items as [|[i episode] rest IH]; intros fr; simpl.
  - split; lia.
  - rewrite Hb.
    assert (count_tokens_calls
              ((calls fr ++ if full_format i episode then [CallFormat episode] else [])
               ++ [CallCountTokens (step_text n_episodes i episode)]) =
            S (count_tokens_calls (calls fr))) as Hc.
    { rewrite !count_tokens_calls_app. destruct (full_format i episode); simpl; lia. }
    assert (format_calls
              ((calls fr ++ if full_format i episode then [CallFormat episode] else [])
               ++ [CallCountTokens (step_text n_episodes i episode)]) <=
            S (format_calls (calls fr)))%nat as Hf.
    { rewrite !format_calls_app. destruct (full_format i episode); simpl; lia. }
    destruct (tokens fr + count (step_text n_episodes i episode) >? m).
    + simpl. split; lia.
    + match goal with
      | |- context [loop mt ct n_episodes rest ?fr'] =>
          destruct (IH fr') as [IHc IHf]
      end.
      simpl in IHc, IHf. rewrite IHc. split; lia.
Qed.

(** X7: with an active budget the scan reads no further than the first
    step that does not fit: [count_tokens] is called once for each kept
    step and once for the step that overflowed, and [format()] at most
    as often. *)
Theorem scan_stops_at_cutoff (episode_history : list Episode) (m : Z)
    (count : string -> Z) :
  m <> 0 ->
  let run := _compile_progress episode_history (Some m) (Some count) in
  let k := List.length (steps (final_frame episode_history (Some m) (Some count))) in
  count_tokens_calls (trace run) = Nat.min (S k) (List.length episode_history) /\
  (format_calls (trace run) <= Nat.min (S k) (List.length episode_history))%nat.
Proof.
  intros Hm run k. subst run k.
  destruct (kept_count_bounded episode_history m count Hm) as [_ ->].
  rewrite compile_progress_returns by apply guard_with_counter. cbn [trace].
  unfold final_frame.
  destruct (loop_counts_bounded _ _ (len episode_history) m count
              (budget_active m count Hm)
              (enumerate (reversed episode_history)) (mkFrame [] 0 []))
    as [Hc Hf].
  simpl in Hc, Hf. unfold enumerate, reversed in *.
  rewrite enumerate_from_length, length_rev in Hc, Hf.
  split; [exact Hc|exact Hf].
Qed.

Lemma loop_calls_unbounded (mt : option Z) (ct : option (string -> Z))
    (n_episodes : Z) :
  budget mt ct = None ->
  forall items fr,
    calls (loop mt ct n_episodes items fr) =
    (calls fr ++ map CallFormat (formatted items))%list.
Proof.
  intros Hb. induction items as [|[i episode] rest IH]; intros fr; simpl.
  - now rewrite app_nil_r.
  - rewrite Hb, IH. unfold formatted. simpl.
    destruct (full_format i episode); simpl.
    + now rewrite <- app_assoc.
    + now rewrite app_nil_r.
Qed.

Lemma loop_format_calls (mt : option Z) (ct : option (string -> Z))
    (n_episodes : Z) :
  forall items fr,
    (format_calls (calls (loop mt ct n_episodes items fr)) <=
     format_calls (calls fr) + List.length (formatted items))%nat.
Proof.
  induction items as [|[i episode] rest IH]; intros fr; simpl; [lia|].
  assert (format_calls
            (calls fr ++ if full_format i episode then [CallFormat episode] else []) +
          List.length (formatted rest) =
          format_calls (calls fr) + List.length (formatted ((i, episode) :: rest)))%nat
    as Hlog.
  { rewrite format_calls_app. unfold formatted. simpl.
    destruct (full_format i episode); simpl; lia. }
  destruct (budget mt ct) as [[m count]|].
  - destruct (tokens fr + count (step_text n_episodes i episode) >? m).
    + simpl. rewrite format_calls_app. simpl. lia.
    + match goal with
      | |- context [loop mt ct n_episodes rest ?fr'] => specialize (IH fr')
      end.
      simpl in IH. rewrite format_calls_app in IH. simpl in IH. lia.
  - match goal with
    | |- context [loop mt ct n_episodes rest ?fr'] => specialize (IH fr')
    end.
    simpl in IH. lia.
Qed.

(** Of a ledger whose episodes all have a summary only the first four
    items of the scan are rendered in full format. *)
Lemma formatted_summarised (l : list Episode) :
  (forall episode, In episode l -> summary episode <> None) ->
  forall start,
    List.length (formatted (enumerate_from start l)) =
    Nat.min (Z.to_nat (4 - start)) (List.length l).
Proof.
  unfold formatted. induction l as [|x l IH]; intros Hsum start;
    cbn [enumerate_from filter fst snd].
  - cbn [map List.length]. lia.
  - assert (full_format start x = (start <? 4)) as ->.
    { unfold full_format. destruct (summary x) eqn:E.
      - apply orb_false_r.
      - exfalso. apply (Hsum x); [now left|exact E]. }
    assert (forall episode, In episode l -> summary episode <> None) as Hl
      by (intros; apply Hsum; now right).
    destruct (Z.ltb_spec start 4) as [Hlt|Hge]; cbn [map List.length];
      rewrite (IH Hl (start + 1)); lia.
Qed.

(** X8: without a budget the calls of a run are exactly the [format()]
    calls on the episodes rendered in full format, newest first, one
    each. *)
Theorem unbounded_run_calls (episode_history : list Episode)
    (ct : option (string -> Z)) :
  trace (_compile_progress episode_history None ct) =
  map CallFormat (formatted (enumerate (reversed episode_history))).
Proof.
  rewrite compile_progress_returns by reflexivity. cbn [trace].
  unfold final_frame. now rewrite loop_calls_unbounded by reflexivity.
Qed.

(** X9: once every episode of the ledger has a summary, a run calls
    [format()] at most 4 times, whatever the budget. *)
Theorem summarised_ledger_formats_four (episode_history : list Episode)
    (mt : option Z) (ct : option (string -> Z)) :
  (forall episode, In episode episode_history -> summary episode <> None) ->
  (format_calls (trace (_compile_progress episode_history mt ct)) <= 4)%nat.
Proof.
  intros Hsum. unfold _compile_progress.
  destruct (truthy_int mt && negb (truthy_fn ct)); cbn [trace]; [simpl; lia|].
  unfold final_frame.
  pose proof (loop_format_calls mt ct (len episode_history)
                (enumerate (reversed episode_history)) (mkFrame [] 0 [])) as Hle.
  unfold enumerate in Hle. rewrite formatted_summarised in Hle.
  - simpl in Hle. unfold enumerate. lia.
  - intros episode Hin. apply Hsum. now apply in_rev.
Qed.

(** ** Episodes the scan does not reach *)

Lemma enumerate_from_app {A : Type} (a b : list A) :
  forall start,
    enumerate_from start (a ++ b) =
    (enumerate_from start a ++ enumerate_from (start + len a) b)%list.
Proof.
  unfold len. induction a as [|x a IH]; intros start; simpl.
  - now rewrite Z.add_0_r.
  - rewrite IH. do 3 f_equal. lia.
Qed.

Lemma fitting_prefix (m : Z) (count : string -> Z) (a b : list string) :
  forall spent,
    (fitting m count spent a <= fitting m count spent (a ++ b))%nat.
Proof.
  induction a as [|x a IH]; intros spent; simpl; [lia|].
  destruct (spent + count x >? m); [lia|]. specialize (IH (spent + count x)). lia.
Qed.

(** A loop that stops among its first items never looks at the rest. *)
Lemma loop_stops_in_prefix (mt : option Z) (ct : option (string -> Z))
    (n_episodes m : Z) (count : string -> Z) :
  budget mt ct = Some (m, count) ->
  forall a b fr,
    (fitting m count (tokens fr) (scanned n_episodes a) < List.length a)%nat ->
    loop mt ct n_episodes (a ++ b) fr = loop mt ct n_episodes a fr.
Proof.
  intros Hb. induction a as [|[i episode] a IH]; intros b fr Hk; simpl in *; [lia|].
  rewrite Hb. destruct (tokens fr + count (step_text n_episodes i episode) >? m).
  - reflexivity.
  - apply IH. simpl. lia.
Qed.

(** X10: the episodes the scan does not reach have no influence: when
    the newest episodes [recent] already hold the step that overflows,
    replacing the older ones by as many others changes neither the
    digest nor the calls made. *)
Theorem unreached_episodes_do_not_matter (older older' recent : list Episode)
    (m : Z) (count : string -> Z) :
  m <> 0 ->
  List.length older' = List.length older ->
  (List.length (steps (final_frame (older ++ recent) (Some m) (Some count))) <
   List.length recent)%nat ->
  _compile_progress (older' ++ recent) (Some m) (Some count) =
  _compile_progress (older ++ recent) (Some m) (Some count).
Proof.
  intros Hm Hlen Hk.
  destruct (kept_count_bounded (older ++ recent) m count Hm) as [_ Hkept].
  rewrite Hkept in Hk. clear Hkept.
  assert (len (older' ++ recent) = len (older ++ recent)) as Hn
    by (unfold len; rewrite !length_app, Hlen; reflexivity).
  pose proof (budget_active m count Hm) as Hb.
  unfold scan_steps, scanned, enumerate, reversed in Hk.
  rewrite rev_app_distr, enumerate_from_app, map_app in Hk.
  assert (fitting m count 0
            (scanned (len (older ++ recent)) (enumerate_from 0 (rev recent))) <
          List.length (enumerate_from 0 (rev recent)))%nat as Hstop.
  { rewrite enumerate_from_length, length_rev.
    eapply Nat.le_lt_trans; [apply fitting_prefix|exact Hk]. }
  rewrite !compile_progress_returns by apply guard_with_counter.
  unfold final_frame, enumerate, reversed.
  rewrite Hn, !rev_app_distr, !enumerate_from_app.
  rewrite !(loop_stops_in_prefix _ _ _ m count Hb) by exact Hstop.
  reflexivity.
Qed.

(** ** A growing ledger *)

(** X11: registering a new action leaves the rendering of an earlier
    step in the unbounded digest as it was, label and body, when that
    episode has no summary or is still among the 4 most recent. *)
Theorem earlier_steps_stable (episode_history : list Episode)
    (newest : Episode) (k : nat) (episode : Episode) :
  nth_error episode_history k = Some episode ->
  summary episode = None \/ len episode_history - Z.of_nat k < 4 ->
  nth_error (steps (final_frame (episode_history ++ [newest]) None None)) k =
  nth_error (steps (final_frame episode_history None None)) k.
Proof.
  intros Hk Hsame.
  rewrite !(final_steps_unbounded _ None None eq_refl).
  assert (nth_error (episode_history ++ [newest]) k = Some episode) as Hk'.
  { rewrite nth_error_app1; [exact Hk|]. apply nth_error_Some. congruence. }
  rewrite (chronological_nth _ _ _ Hk), (chronological_nth _ _ _ Hk').
  assert (len (episode_history ++ [newest]) = len episode_history + 1) as ->
    by (unfold len; rewrite length_app; simpl; lia).
  f_equal. unfold step_text, step_content, full_format.
  replace (len episode_history + 1 - (len episode_history + 1 - 1 - Z.of_nat k))
    with (len episode_history - (len episode_history - 1 - Z.of_nat k)) by lia.
  f_equal. f_equal. f_equal.
  destruct Hsame as [->|Hrecent].
  - now rewrite !orb_true_r.
  - destruct (Z.ltb_spec (len episode_history + 1 - 1 - Z.of_nat k) 4); [|lia].
    destruct (Z.ltb_spec (len episode_history - 1 - Z.of_nat k) 4); [|lia].
    reflexivity.
Qed.

(** ** The heap a call leaves *)

Lemma store_fresh (h : Heap) (o o' : Obj) :
  store (h ++ [o])%list (List.length h) o' = (h ++ [o'])%list.
Proof. induction h as [|x h IH]; simpl; [reflexivity|now rewrite IH]. Qed.

Lemma read_episode_grow (h : Heap) (extra : list Obj) (ref : nat)
    (episode : Episode) :
  read_episode h ref = Some episode ->
  read_episode (h ++ extra)%list ref = Some episode.
Proof.
  unfold read_episode. intros Hr.
  destruct (nth_error h ref) as [o|] eqn:E; [|discriminate].
  rewrite nth_error_app1 by (apply nth_error_Some; congruence).
  now rewrite E.
Qed.

Lemma read_episodes_grow (h : Heap) (extra : list Obj) (refs : list nat) :
  forall episodes,
    read_episodes h refs = Some episodes ->
    read_episodes (h ++ extra)%list refs = Some episodes.
Proof.
  induction refs as [|ref refs IH]; intros episodes Hr; simpl in *; [exact Hr|].
  destruct (read_episode h ref) as [episode|] eqn:E; [|discriminate].
  destruct (read_episodes h refs) as [rest|]; [|discriminate].
  now rewrite (read_episode_grow _ extra _ _ E), (IH rest eq_refl).
Qed.

(** Objects allocated later do not change what a reference stands for. *)
Lemma read_history_grow (h : Heap) (extra : list Obj) (episode_history : nat)
    (episodes : list Episode) :
  read_history h episode_history = Some episodes ->
  read_history (h ++ extra)%list episode_history = Some episodes.
Proof.
  unfold read_history. intros Hr.
  destruct (nth_error h episode_history) as [o|] eqn:E; [|discriminate].
  rewrite nth_error_app1 by (apply nth_error_Some; congruence).
  rewrite E. destruct o; try discriminate. now apply read_episodes_grow.
Qed.

Lemma read_episodes_length (h : Heap) (refs : list nat) :
  forall episodes,
    read_episodes h refs = Some episodes ->
    List.length episodes = List.length refs.
Proof.
  induction refs as [|ref refs IH]; intros episodes Hr; simpl in *.
  - now injection Hr as <-.
  - destruct (read_episode h ref); [|discriminate].
    destruct (read_episodes h refs) as [rest|]; [|discriminate].
    injection Hr as <-. simpl. now rewrite (IH rest eq_refl).
Qed.

Lemma read_episodes_nth (h : Heap) (refs : list nat) :
  forall episodes k episode,
    read_episodes h refs = Some episodes ->
    nth_error episodes k = Some episode ->
    exists ref, nth_error refs k = Some ref /\ read_episode h ref = Some episode.
Proof.
  induction refs as [|ref refs IH]; intros episodes k episode Hr Hk; simpl in *.
  - injection Hr as <-. destruct k; discriminate.
  - destruct (read_episode h ref) as [first|] eqn:E; [|discriminate].
    destruct (read_episodes h refs) as [rest|]; [|discriminate].
    injection Hr as <-. destruct k as [|k]; simpl in *.
    + injection Hk as <-. exists ref. auto.
    + exact (IH rest k episode eq_refl Hk).
Qed.

Lemma rev_firstn_S {A : Type} (l : list A) (k : nat) (x : A) :
  nth_error l k = Some x ->
  rev (firstn (S k) l) = x :: rev (firstn k l).
Proof.
  revert k. induction l as [|y l IH]; intros k Hk; destruct k as [|k];
    try discriminate.
  - cbn in Hk. injection Hk as ->. reflexivity.
  - cbn [nth_error] in Hk. rewrite (firstn_cons (S k)), (firstn_cons k).
    cbn [rev]. now rewrite (IH k Hk).
Qed.

(** The loop on the heap writes the object of [steps] alone, and what
    it leaves there is what the loop on values keeps. *)
Lemma loop_heap_steps (h : Heap) (episode_history : nat) (refs : list nat)
    (episodes : list Episode) (mt : option Z) (ct : option (string -> Z))
    (n_episodes : Z) :
  nth_error h episode_history = Some (ObjList refs) ->
  read_episodes h refs = Some episodes ->
  forall pending i kept spent log,
    (pending <= List.length episodes)%nat ->
    loop_heap mt ct n_episodes episode_history (List.length h) pending i spent
      (h ++ [ObjStrList kept])%list =
    Some (h ++ [ObjStrList
                  (steps (loop mt ct n_episodes
                            (enumerate_from i (rev (firstn pending episodes)))
                            (mkFrame kept spent log)))])%list.
Proof.
  intros Hlist Hrefs.
  assert (episode_history < List.length h)%nat as Hold
    by (apply nth_error_Some; congruence).
  induction pending as [|index IH]; intros i kept spent log Hle.
  - reflexivity.
  - destruct (nth_error episodes index) as [episode|] eqn:Hep;
      [|apply nth_error_None in Hep; lia].
    destruct (read_episodes_nth _ _ _ _ _ Hrefs Hep) as (ref & Href & Hread).
    rewrite (rev_firstn_S _ _ _ Hep).
    cbn [loop_heap enumerate_from loop steps tokens calls].
    rewrite nth_error_app1 by exact Hold. rewrite Hlist, Href.
    rewrite (read_episode_grow _ _ _ _ Hread).
    destruct (budget mt ct) as [[m count]|].
    + destruct (spent + count (step_text n_episodes i episode) >? m).
      * reflexivity.
      * rewrite nth_error_app2 by lia. rewrite Nat.sub_diag. cbn [nth_error].
        rewrite store_fresh. apply IH. lia.
    + rewrite nth_error_app2 by lia. rewrite Nat.sub_diag. cbn [nth_error].
      rewrite store_fresh. apply IH. lia.
Qed.

(** The call on the heap, for a reference that stands for [episodes]:
    it returns what [_compile_progress] returns on these episodes, and
    the heap it leaves is the given heap followed by the list object of
    [steps] when the guard passes, and the given heap when it raises. *)
Lemma compile_progress_heap_run (h : Heap) (episode_history : nat)
    (episodes : list Episode) (mt : option Z) (ct : option (string -> Z)) :
  read_history h episode_history = Some episodes ->
  _compile_progress_heap h episode_history mt ct =
  Some (result (_compile_progress episodes mt ct),
        if truthy_int mt && negb (truthy_fn ct) then h
        else (h ++ [ObjStrList (steps (final_frame episodes mt ct))])%list).
Proof.
  unfold read_history, _compile_progress_heap, _compile_progress. intros Hr.
  destruct (truthy_int mt && negb (truthy_fn ct)); [reflexivity|].
  destruct (nth_error h episode_history) as [o|] eqn:Hlist; [|discriminate].
  destruct o as [|refs|]; try discriminate.
  assert (episode_history < List.length h)%nat as Hold
    by (apply nth_error_Some; congruence).
  pose proof (read_episodes_length _ _ _ Hr) as Hlen.
  cbn [alloc]. rewrite nth_error_app1 by exact Hold. rewrite Hlist.
  rewrite <- Hlen.
  rewrite (loop_heap_steps h episode_history refs episodes mt ct (len refs)
             Hlist Hr (List.length episodes) 0 [] 0 []) by lia.
  rewrite nth_error_app2 by lia. rewrite Nat.sub_diag. cbn [nth_error result].
  rewrite firstn_all. unfold final_frame, enumerate, reversed, len.
  now rewrite Hlen.
Qed.

(** C8: a call mutates no object that existed before it: the heap it
    leaves holds every earlier object unchanged (the only object
    written is the list of [steps] the call itself created), so the
    ledger reference still stands for the same episodes; and a second
    call with the same arguments, made on the heap the first one left,
    returns the same outcome. *)
Theorem compile_progress_leaves_heap (h : Heap) (episode_history : nat)
    (episodes : list Episode) (mt : option Z) (ct : option (string -> Z)) :
  read_history h episode_history = Some episodes ->
  exists (r : outcome string) (h1 h2 : Heap),
    _compile_progress_heap h episode_history mt ct = Some (r, h1) /\
    r = result (_compile_progress episodes mt ct) /\
    (forall ref, (ref < List.length h)%nat -> nth_error h1 ref = nth_error h ref) /\
    read_history h1 episode_history = Some episodes /\
    _compile_progress_heap h1 episode_history mt ct = Some (r, h2).
Proof.
  intros Hr.
  set (h1 := if truthy_int mt && negb (truthy_fn ct) then h
             else (h ++ [ObjStrList (steps (final_frame episodes mt ct))])%list).
  assert (read_history h1 episode_history = Some episodes) as Hr1.
  { subst h1. destruct (truthy_int mt && negb (truthy_fn ct)); [exact Hr|].
    now apply read_history_grow. }
  exists (result (_compile_progress episodes mt ct)), h1.
  eexists. split; [exact (compile_progress_heap_run _ _ _ mt ct Hr)|].
  split; [reflexivity|]. split; [|split].
  - intros ref Href. subst h1.
    destruct (truthy_int mt && negb (truthy_fn ct)); [reflexivity|].
    now rewrite nth_error_app1 by exact Href.
  - exact Hr1.
  - exact (compile_progress_heap_run _ _ _ mt ct Hr1).
Qed.

End ActionHistory.

Arguments CallFormat {Episode} episode.
Arguments CallCountTokens {Episode} text.
Arguments mkFrame {Episode} steps tokens calls.
Arguments steps {Episode} f.
Arguments tokens {Episode} f.
Arguments calls {Episode} f.
Arguments mkRun {Episode A} result trace.
Arguments result {Episode A} r.
Arguments trace {Episode A} r.
Arguments full_format {Episode} summary i episode.
Arguments step_content {Episode} format summary indent i episode.
Arguments step_text {Episode} format summary indent n_episodes i episode.
Arguments loop {Episode} format summary indent max_tokens count_tokens
n_episodes items fr.
Arguments final_frame {Episode} format summary indent episode_history
max_tokens count_tokens.
Arguments scanned {Episode} format summary indent n_episodes items.
Arguments scan_steps {Episode} format summary indent episode_history.
Arguments read_only_call {Episode} format summary indent episode_history call.
Arguments count_tokens_calls {Episode} log.
Arguments format_calls {Episode} log.
Arguments formatted {Episode} summary items.
Arguments ObjEpisode {Episode} episode.
Arguments ObjList {Episode} items.
Arguments ObjStrList {Episode} items.
Arguments read_history {Episode} h episode_history.
Arguments _compile_progress_heap {Episode} format summary indent h episode_history mt ct.
Arguments _compile_progress {Episode} format summary indent episode_history
max_tokens count_tokens.
Arguments mkComponent {Episode} event_history count_tokens config.
Arguments event_history {Episode} a.
Arguments count_tokens {Episode} a.
Arguments config {Episode} a.
Arguments get_messages {Episode} format summary indent self.


(** ** Determinism *)

Lemma step_text_ext {Episode : Type} (format format' : Episode -> string)
    (summary summary' : Episode -> option string)
    (indent indent' : string -> Z -> string) :
  (forall episode, format episode = format' episode) ->
  (forall episode, summary episode = summary' episode) ->
  (forall text n, indent text n = indent' text n) ->
  forall n_episodes i episode,
    full_format summary i episode = full_format summary' i episode /\
    step_text format summary indent n_episodes i episode =
    step_text format' summary' indent' n_episodes i episode.
Proof.
  intros Hf Hs Hi n_episodes i episode.
  unfold step_text, step_content, full_format.
  now rewrite Hf, Hs, Hi.
Qed.

Lemma budget_ext (max_tokens : option Z) (a b : option (string -> Z)) :
  same_counter a b ->
  match budget max_tokens a, budget max_tokens b with
  | None, None => True
  | Some (m, count), Some (m', count') =>
      m = m' /\ forall text, count text = count' text
  | _, _ => False
  end.
Proof.
  unfold budget. destruct a as [f|], b as [g|]; simpl; intros Hab; try contradiction.
  - destruct max_tokens as [m|]; simpl; [|exact I].
    destruct (m =? 0); simpl; [exact I|]. split; [reflexivity|exact Hab].
  - destruct (truthy_int max_tokens); exact I.
Qed.

(** The loop depends on its collaborators only through the values they
    return. *)
Lemma loop_ext {Episode : Type} (format format' : Episode -> string)
    (summary summary' : Episode -> option string)
    (indent indent' : string -> Z -> string)
    (max_tokens : option Z) (a b : option (string -> Z)) (n_episodes : Z) :
  (forall episode, format episode = format' episode) ->
  (forall episode, summary episode = summary' episode) ->
  (forall text n, indent text n = indent' text n) ->
  same_counter a b ->
  forall items fr,
    loop format summary indent max_tokens a n_episodes items fr =
    loop format' summary' indent' max_tokens b n_episodes items fr.
Proof.
  intros Hf Hs Hi Hab.
  pose proof (budget_ext max_tokens a b Hab) as Hb.
  induction items as [|[i episode] rest IH]; intros fr; simpl; [reflexivity|].
  destruct (step_text_ext format format' summary summary' indent indent'
              Hf Hs Hi n_episodes i episode) as [-> ->].
  destruct (budget max_tokens a) as [[m count]|],
           (budget max_tokens b) as [[m' count']|]; try contradiction.
  - destruct Hb as [<- Hc]. rewrite Hc.
    destruct (tokens fr + count' _ >? m); [reflexivity|apply IH].
  - apply IH.
Qed.

(** Two calls on the same ledger and budget, with collaborators that
    return the same values, return the same digest after the same
    calls, and every call made only reads. *)
Lemma compile_progress_ext {Episode : Type}
    (format format' : Episode -> string)
    (summary summary' : Episode -> option string)
    (indent indent' : string -> Z -> string)
    (episode_history : list Episode) (max_tokens : option Z)
    (a b : option (string -> Z)) :
  (forall episode, format episode = format' episode) ->
  (forall episode, summary episode = summary' episode) ->
  (forall text n, indent text n = indent' text n) ->
  same_counter a b ->
  _compile_progress format summary indent episode_history max_tokens a =
  _compile_progress format' summary' indent' episode_history max_tokens b /\
  Forall (read_only_call format summary indent episode_history)
    (trace (_compile_progress format summary indent episode_history max_tokens a)).
Proof.
  intros Hf Hs Hi Hab. split; [|apply compile_progress_read_only].
  unfold _compile_progress, final_frame.
  rewrite (loop_ext format format' summary summary' indent indent'
             max_tokens a b _ Hf Hs Hi Hab).
  destruct a, b; try contradiction; reflexivity.
Qed.

(** ** The properties on the concrete ledger *)

Example str_6 : str 6 = "6".
Proof. reflexivity. Qed.

Example str_0 : str 0 = "0".
Proof. reflexivity. Qed.

Example str_12 : str 12 = "12".
Proof. reflexivity. Qed.

Example str_neg : str (-3) = "-3".
Proof. reflexivity. Qed.

Example strip_ex : strip ("  a b" ++ LF) = "a b".
Proof. reflexivity. Qed.

Example indent_two_lines : Sample.indent ("a" ++ LF ++ "b") 2 = "  a" ++ LF ++ "  b".
Proof. reflexivity. Qed.

(** The second scenario of the specification: with a budget of 1000 all
    six steps are kept, the two oldest as summaries, 130 tokens in all. *)
Example six_episodes_budget_1000 :
  result (_compile_progress Sample.format Sample.summary Sample.indent
            Sample.six (Some 1000) (Some Sample.count_30_5)) =
    Return ("* Step 1: listed" ++ LF ++ LF ++ "* Step 2: read" ++ LF ++ LF ++
            "* Step 3: edit file" ++ LF ++ LF ++ "* Step 4: run tests" ++ LF ++ LF ++
            "* Step 5: fix bug" ++ LF ++ LF ++ "* Step 6: commit") /\
  total Sample.count_30_5
    (steps (final_frame Sample.format Sample.summary Sample.indent
              Sample.six (Some 1000) (Some Sample.count_30_5))) = 130.
Proof. split; reflexivity. Qed.

(** C1 on the ledger of two episodes, with the length as token count
    and a budget of 30. *)
Lemma kept_steps_within_budget_witness :
  0 < 30 /\
  total Sample.count_len
    (steps (final_frame Sample.format Sample.summary Sample.indent
              Sample.two (Some 30) (Some Sample.count_len))) <= 30.
Proof.
  split; [lia|].
  apply (kept_steps_within_budget Sample.Episode Sample.format Sample.summary
           Sample.indent Sample.two 30 Sample.count_len).
  lia.
Defined.

(** C1 fails for the digest as a whole, which can cost more than
    [max_tokens]: two steps of 15
    characters fit a budget of 30 characters, and joined by a blank line
    they make a digest of 32. *)
Lemma digest_exceeds_budget :
  result (_compile_progress Sample.format Sample.summary Sample.indent
            Sample.two (Some 30) (Some Sample.count_len)) =
    Return ("* Step 1: run a" ++ LF ++ LF ++ "* Step 2: run b") /\
  Sample.count_len ("* Step 1: run a" ++ LF ++ LF ++ "* Step 2: run b") = 32 /\
  32 > 30.
Proof. split; [reflexivity|split; [reflexivity|lia]]. Qed.

(** C2 on the ledger of six episodes. *)
Lemma six_episodes_budget_100_witness :
  (forall (i : Z) (episode : Sample.Episode),
      In (i, episode) (enumerate (reversed Sample.six)) ->
      Sample.count_30_5
        (step_text Sample.format Sample.summary Sample.indent 6 i episode) =
      if full_format Sample.summary i episode then 30 else 5) /\
  result (_compile_progress Sample.format Sample.summary Sample.indent
            Sample.six (Some 100) (Some Sample.count_30_5)) =
    Return ("* Step 4: run tests" ++ LF ++ LF ++
            "* Step 5: fix bug" ++ LF ++ LF ++ "* Step 6: commit").
Proof.
  assert (forall (i : Z) (episode : Sample.Episode),
      In (i, episode) (enumerate (reversed Sample.six)) ->
      Sample.count_30_5
        (step_text Sample.format Sample.summary Sample.indent 6 i episode) =
      if full_format Sample.summary i episode then 30 else 5) as Hcost.
  { intros i episode Hin. simpl in Hin.
    repeat (destruct Hin as [Hin|Hin]; [inversion Hin; reflexivity|]).
    contradiction. }
  split; [exact Hcost|].
  apply (six_episodes_budget_100 Sample.Episode Sample.format Sample.summary
           Sample.indent _ _ _ _ _ _ Sample.count_30_5 Hcost).
Defined.

(** C2 as stated fails: with 6 episodes, a budget of 100, full-format steps of 30 tokens
    and summaries of 5, the digest is not step 6 alone: steps 4 and 5
    are kept as well. *)
Lemma six_episodes_not_only_step_6 :
  Sample.count_30_5 "* Step 6: commit" = 30 /\
  Sample.count_30_5 "* Step 5: fix bug" = 30 /\
  Sample.count_30_5 "* Step 4: run tests" = 30 /\
  Sample.count_30_5 "* Step 3: edit file" = 30 /\
  Sample.count_30_5 "* Step 2: read" = 5 /\
  Sample.count_30_5 "* Step 1: listed" = 5 /\
  steps (final_frame Sample.format Sample.summary Sample.indent
           Sample.six (Some 100) (Some Sample.count_30_5)) =
    ["* Step 4: run tests"; "* Step 5: fix bug"; "* Step 6: commit"] /\
  result (_compile_progress Sample.format Sample.summary Sample.indent
            Sample.six (Some 100) (Some Sample.count_30_5)) <>
    Return "* Step 6: commit".
Proof. repeat (split; [reflexivity|]). vm_compute. discriminate. Qed.

(** C3 on the ledger of six episodes: the scan keeps three steps. *)
Lemma hard_cutoff_witness :
  100 <> 0 /\
  steps (final_frame Sample.format Sample.summary Sample.indent
           Sample.six (Some 100) (Some Sample.count_30_5)) =
  rev (firstn 3 (scan_steps Sample.format Sample.summary Sample.indent Sample.six)).
Proof.
  split; [lia|].
  apply (hard_cutoff Sample.Episode Sample.format Sample.summary Sample.indent
           Sample.six 100 Sample.count_30_5).
  lia.
Defined.

(** C5 on the ledger of six episodes with a budget of 1000: the newest
    step is in full format, the step at recency index 4 is its
    summary. *)
Lemma tiering_rule_witness :
  truthy_int (Some 1000) && negb (truthy_fn (Some Sample.count_30_5)) = false /\
  exists kept : list string,
    result (_compile_progress Sample.format Sample.summary Sample.indent
              Sample.six (Some 1000) (Some Sample.count_30_5)) =
      Return (join (LF ++ LF) kept) /\
    nth_error (rev kept) 0 = Some "* Step 6: commit" /\
    nth_error (rev kept) 4 = Some "* Step 2: read".
Proof.
  split; [reflexivity|].
  destruct (tiering_rule Sample.Episode Sample.format Sample.summary
              Sample.indent Sample.six (Some 1000) (Some Sample.count_30_5)
              eq_refl)
    as (kept & Hres & _ & _ & Hfit & Hsteps).
  assert (List.length kept = 6%nat) as Hlen.
  { rewrite (Hfit 1000 Sample.count_30_5 eq_refl eq_refl); [reflexivity|lia]. }
  exists kept. split; [exact Hres|]. split.
  - destruct (Hsteps 0%nat) as (episode & body & He & Hnth & Hbody & _); [lia|].
    vm_compute in He. injection He as <-. rewrite Hnth, Hbody. reflexivity.
  - destruct (Hsteps 4%nat) as (episode & body & He & Hnth & Hbody & _); [lia|].
    vm_compute in He. injection He as <-. rewrite Hnth, Hbody. reflexivity.
Defined.

(** C6 on the ledger of six episodes with a budget of 100: three steps
    are kept, labelled 4, 5 and 6. *)
Lemma step_labels_witness :
  truthy_int (Some 100) && negb (truthy_fn (Some Sample.count_30_5)) = false /\
  exists kept : list string,
    result (_compile_progress Sample.format Sample.summary Sample.indent
              Sample.six (Some 100) (Some Sample.count_30_5)) =
      Return (join (LF ++ LF) kept) /\
    List.length kept = 3%nat /\
    nth_error (rev kept) 0 = Some "* Step 6: commit" /\
    nth_error (rev kept) 2 = Some "* Step 4: run tests".
Proof.
  split; [reflexivity|].
  destruct (step_labels Sample.Episode Sample.format Sample.summary
              Sample.indent Sample.six (Some 100) (Some Sample.count_30_5)
              eq_refl)
    as (kept & Hres & _ & _ & Hfit & Hsteps & _).
  assert (List.length kept = 3%nat) as Hlen.
  { rewrite (Hfit 100 Sample.count_30_5 eq_refl eq_refl); [reflexivity|lia]. }
  exists kept. split; [exact Hres|]. split; [exact Hlen|]. split.
  - destruct (Hsteps 0%nat) as (episode & He & _ & Hnth); [lia|].
    vm_compute in He. injection He as <-. rewrite Hnth. reflexivity.
  - destruct (Hsteps 2%nat) as (episode & He & _ & Hnth); [lia|].
    vm_compute in He. injection He as <-. rewrite Hnth. reflexivity.
Defined.

(** C7 as stated fails: [max_tokens = 0] is set, [count_tokens] is
    [None], and the call returns a digest. *)
Lemma zero_budget_without_counter_returns :
  _compile_progress Sample.format Sample.summary Sample.indent
    Sample.two (Some 0) None =
  mkRun (Return ("* Step 1: run a" ++ LF ++ LF ++ "* Step 2: run b"))
        [CallFormat (Sample.ep "run b"); CallFormat (Sample.ep "run a")].
Proof. reflexivity. Qed.

(** ** Further properties on the concrete ledger *)

(** X3 on a component with [max_tokens = -1] that counts characters. *)
Lemma negative_budget_is_silent_witness :
  get_messages Sample.format Sample.summary Sample.indent
    (mkComponent Sample.six Sample.count_len (mkConfig (-1) "en_core_web_sm")) =
  Return [].
Proof.
  apply (negative_budget_is_silent Sample.Episode Sample.format Sample.summary
           Sample.indent
           (mkComponent Sample.six Sample.count_len (mkConfig (-1) "en_core_web_sm"))).
  - simpl. lia.
  - intros text. simpl. unfold Sample.count_len. lia.
Defined.

(** X4 on a component with [max_tokens = 0] and the ledger of two
    episodes. *)
Lemma zero_config_sends_full_history_witness :
  get_messages Sample.format Sample.summary Sample.indent
    (mkComponent Sample.two Sample.count_len (mkConfig 0 "en_core_web_sm")) =
  Return [mkChatMessage SYSTEM
            ("## Progress on your Task so far" ++ LF ++ LF ++
             "* Step 1: run a" ++ LF ++ LF ++ "* Step 2: run b")].
Proof.
  apply (zero_config_sends_full_history Sample.Episode Sample.format
           Sample.summary Sample.indent
           (mkComponent Sample.two Sample.count_len (mkConfig 0 "en_core_web_sm"))).
  - reflexivity.
  - simpl. discriminate.
Defined.

(** X5 on the ledger of six episodes, for the budgets 50 and 100. *)
Lemma larger_budget_keeps_more_witness :
  50 <> 0 /\ 100 <> 0 /\ 50 <= 100 /\
  exists extra : list string,
    steps (final_frame Sample.format Sample.summary Sample.indent
             Sample.six (Some 100) (Some Sample.count_30_5)) =
    (extra ++
     steps (final_frame Sample.format Sample.summary Sample.indent
              Sample.six (Some 50) (Some Sample.count_30_5)))%list.
Proof.
  repeat (split; [lia|]).
  apply (larger_budget_keeps_more Sample.Episode Sample.format Sample.summary
           Sample.indent Sample.six 50 100 Sample.count_30_5); lia.
Defined.

(** X6 on the ledger of six episodes, whose steps cost 130 in all, for
    the budget 1000. *)
Lemma ample_budget_is_unbounded_witness :
  total Sample.count_30_5
    (scan_steps Sample.format Sample.summary Sample.indent Sample.six) <= 1000 /\
  result (_compile_progress Sample.format Sample.summary Sample.indent
            Sample.six (Some 1000) (Some Sample.count_30_5)) =
  result (_compile_progress Sample.format Sample.summary Sample.indent
            Sample.six None None).
Proof.
  assert (total Sample.count_30_5
            (scan_steps Sample.format Sample.summary Sample.indent Sample.six)
          <= 1000) as Hfit by (vm_compute; discriminate).
  split; [exact Hfit|].
  apply (ample_budget_is_unbounded Sample.Episode Sample.format Sample.summary
           Sample.indent Sample.six 1000 Sample.count_30_5).
  - lia.
  - intros text. unfold Sample.count_30_5.
    destruct (String.prefix "* Step 1: " text || String.prefix "* Step 2: " text); lia.
  - exact Hfit.
Defined.

(** X7 on the ledger of six episodes: three steps are kept and four
    are measured. *)
Lemma scan_stops_at_cutoff_witness :
  100 <> 0 /\
  count_tokens_calls
    (trace (_compile_progress Sample.format Sample.summary Sample.indent
              Sample.six (Some 100) (Some Sample.count_30_5))) =
  Nat.min
    (S (List.length
          (steps (final_frame Sample.format Sample.summary Sample.indent
                    Sample.six (Some 100) (Some Sample.count_30_5)))))
    (List.length Sample.six).
Proof.
  split; [lia|].
  apply (scan_stops_at_cutoff Sample.Episode Sample.format Sample.summary
           Sample.indent Sample.six 100 Sample.count_30_5).
  lia.
Defined.

(** X9 on a ledger of five episodes that all have a summary. *)
Lemma summarised_ledger_formats_four_witness :
  (format_calls
     (trace (_compile_progress Sample.format Sample.summary Sample.indent
               [Sample.ep_sum "a" "sa"; Sample.ep_sum "b" "sb";
                Sample.ep_sum "c" "sc"; Sample.ep_sum "d" "sd";
                Sample.ep_sum "e" "se"]
               None None)) <= 4)%nat.
Proof.
  apply (summarised_ledger_formats_four Sample.Episode Sample.format
           Sample.summary Sample.indent).
  intros episode Hin. simpl in Hin.
  repeat (destruct Hin as [<-|Hin]; [discriminate|]). contradiction.
Defined.

(** X10 on the ledger of six episodes: the scan stops at step 3, so
    the two oldest episodes can be any others. *)
Lemma unreached_episodes_do_not_matter_witness :
  _compile_progress Sample.format Sample.summary Sample.indent
    ([Sample.ep "x"; Sample.ep "y"] ++
     [Sample.ep "edit file"; Sample.ep "run tests"; Sample.ep "fix bug";
      Sample.ep "commit"])
    (Some 100) (Some Sample.count_30_5) =
  _compile_progress Sample.format Sample.summary Sample.indent
    ([Sample.ep_sum "list files" "listed"; Sample.ep_sum "read file" "read"] ++
     [Sample.ep "edit file"; Sample.ep "run tests"; Sample.ep "fix bug";
      Sample.ep "commit"])
    (Some 100) (Some Sample.count_30_5).
Proof.
  apply (unreached_episodes_do_not_matter Sample.Episode Sample.format
           Sample.summary Sample.indent).
  - lia.
  - reflexivity.
  - vm_compute. lia.
Defined.

(** X11 on the ledger of two episodes, for its first step. *)
Lemma earlier_steps_stable_witness :
  nth_error
    (steps (final_frame Sample.format Sample.summary Sample.indent
              (Sample.two ++ [Sample.ep "run c"]) None None)) 0 =
  nth_error
    (steps (final_frame Sample.format Sample.summary Sample.indent
              Sample.two None None)) 0.
Proof.
  apply (earlier_steps_stable Sample.Episode Sample.format Sample.summary
           Sample.indent Sample.two (Sample.ep "run c") 0%nat (Sample.ep "run a")).
  - reflexivity.
  - left. reflexivity.
Defined.

(** ** The call on a concrete heap *)

(** The two episodes of [Sample.two] as objects 0 and 1, and the list
    object of the ledger as object 2. *)
Definition sample_heap : Heap Sample.Episode :=
  [ObjEpisode (Sample.ep "run a"); ObjEpisode (Sample.ep "run b"); ObjList [0%nat; 1%nat]].

Example compile_progress_heap_two :
  _compile_progress_heap Sample.format Sample.summary Sample.indent
    sample_heap 2 (Some 30) (Some Sample.count_len) =
  Some (Return ("* Step 1: run a" ++ LF ++ LF ++ "* Step 2: run b"),
        (sample_heap ++ [ObjStrList ["* Step 1: run a"; "* Step 2: run b"]])%list).
Proof. reflexivity. Qed.

(** C8 on the heap of the two episodes, for the ledger reference 2. *)
Lemma compile_progress_leaves_heap_witness :
  read_history sample_heap 2 = Some Sample.two /\
  exists (r : outcome string) (h1 h2 : Heap Sample.Episode),
    _compile_progress_heap Sample.format Sample.summary Sample.indent
      sample_heap 2 (Some 30) (Some Sample.count_len) = Some (r, h1) /\
    r = result (_compile_progress Sample.format Sample.summary Sample.indent
                  Sample.two (Some 30) (Some Sample.count_len)) /\
    (forall ref, (ref < List.length sample_heap)%nat ->
       nth_error h1 ref = nth_error sample_heap ref) /\
    read_history h1 2 = Some Sample.two /\
    _compile_progress_heap Sample.format Sample.summary Sample.indent
      h1 2 (Some 30) (Some Sample.count_len) = Some (r, h2).
Proof.
  split; [reflexivity|].
  apply (compile_progress_leaves_heap Sample.Episode Sample.format
           Sample.summary Sample.indent sample_heap 2%nat Sample.two).
  reflexivity.
Defined.
